(** * Form-template builder (src/App.js): data model, edit operations, persistence

    A shallow embedding of the React single-page application of [src/App.js]:
    the Field / Section / Template records, the handlers of the [FieldEditor],
    [Section], [TemplateBuilder] and [DynamicForm] components, and the parts of
    the JavaScript runtime they rely on (array copy-and-assign, [splice],
    object spread, [localStorage], [JSON.stringify] / [JSON.parse]).

    Conventions.
    - A JavaScript string is a sequence of code units; here a code unit is an
      [ascii], that is the Latin-1 range U+0000..U+00FF.
    - A JavaScript number is known by the text JavaScript prints for it;
      JSON.parse yields one for the literals that are such a text already
      (safe integers written plainly).
    - Component state ([useState]) is passed explicitly: a handler takes the
      state of the render it closes over and returns the state it sets.
    - [uuid()] is the v4 generator of the [uuid] package.  The value a call
      returns enters the model as an argument of the handler that makes the
      call; the package's contract is that it differs from every identifier
      already in use. *)

From Stdlib Require Import Ascii String List Arith Lia Bool.
From stdpp Require Import base option list strings gmap pretty.


(** ** Outcomes of a computation *)

Inductive exn : Type :=
| SyntaxError   (* raised by JSON.parse *)
| TypeError.    (* property access on null, spread of a non-iterable *)

(** [Ok a]: normal completion.  [Throw e]: an exception reaches the caller.
    [OutOfModel]: the run leaves what this development covers (a sparse
    array, a code unit beyond Latin-1, a number that is not a safe integer
    written plainly, a stored template set with other properties than the
    records have, an event of a control that is not rendered, a parser call
    without fuel). *)
Inductive outcome (A : Type) : Type :=
| Ok (a : A)
| Throw (e : exn)
| OutOfModel.

Arguments Ok {A} a.
Arguments Throw {A} e.
Arguments OutOfModel {A}.

Global Instance outcome_bind : MBind outcome := fun A B k m =>
  match m with
  | Ok a => k a
  | Throw e => Throw e
  | OutOfModel => OutOfModel
  end.

(** ** JavaScript arrays *)

Section Arrays.
Context {A : Type}.

(** [a[i] = x] on a copy of [a].  In range the slot is replaced; at
    [i = a.length] the array grows by one; beyond that JavaScript leaves
    empty slots, which is not a sequence of [A] any more. *)
Definition array_assign (a : list A) (i : nat) (x : A) : outcome (list A) :=
  if i <? length a then Ok (<[i := x]> a)
  else if i =? length a then Ok (a ++ [x])
  else OutOfModel.

(** [a.splice(start, count)] on a copy of [a], for [start >= 0]: the
    elements [start .. start+count-1] that exist are removed. *)
Definition splice (a : list A) (start count : nat) : list A :=
  take start a ++ drop (start + count) a.
End Arrays.

(** [s.split(",")]: never empty; the empty string splits into one empty
    string. *)
Fixpoint split_comma (s : string) : list string :=
  match s with
  | EmptyString => [EmptyString]
  | String c r =>
      if Ascii.eqb c ","%char then EmptyString :: split_comma r
      else match split_comma r with
           | h :: t => String c h :: t
           | [] => [String c EmptyString]
           end
  end.

(** ** Data model *)

Definition FIELD_TYPES : list string :=
  ["label"; "text"; "number"; "boolean"; "enum"].

(** [{ id, type, label, options? }] *)
Module Field.
Record t : Type := mk {
  id : string;
  type : string;
  label : string;
  options : option (list string)   (* [None]: the property is absent *)
}.
End Field.

(** [{ id, title, fields }] *)
Module Sect.
Record t : Type := mk {
  id : string;
  title : string;
  fields : list Field.t
}.
End Sect.

(** [{ id, name, sections }] *)
Module Template.
Record t : Type := mk {
  id : string;
  name : string;
  sections : list Sect.t
}.
End Template.

(** ** FieldEditor: what each control passes to [onChange] *)

(** [onChange({ ...field, type: e.target.value })] *)
Definition FieldEditor_type (field : Field.t) (v : string) : Field.t :=
  Field.mk (Field.id field) v (Field.label field) (Field.options field).

(** [onChange({ ...field, label: e.target.value })] *)
Definition FieldEditor_label (field : Field.t) (v : string) : Field.t :=
  Field.mk (Field.id field) (Field.type field) v (Field.options field).

(** [onChange({ ...field, options: e.target.value.split(",") })] *)
Definition FieldEditor_options (field : Field.t) (v : string) : Field.t :=
  Field.mk (Field.id field) (Field.type field) (Field.label field)
           (Some (split_comma v)).

(** ** Section: handlers; each result is what is passed to [onChange] *)

Definition updateField (section : Sect.t) (index : nat) (updated : Field.t)
  : outcome Sect.t :=
  updatedFields ← array_assign (Sect.fields section) index updated;
  Ok (Sect.mk (Sect.id section) (Sect.title section) updatedFields).

Definition deleteField (section : Sect.t) (index : nat) : Sect.t :=
  let updatedFields := splice (Sect.fields section) index 1 in
  Sect.mk (Sect.id section) (Sect.title section) updatedFields.

(** [onChange({ ...section, title: e.target.value })] *)
Definition Section_title (section : Sect.t) (v : string) : Sect.t :=
  Sect.mk (Sect.id section) v (Sect.fields section).

(** The "Add Field" button; [u] is the value of its [uuid()] call. *)
Definition Section_addField (section : Sect.t) (u : string) : Sect.t :=
  Sect.mk (Sect.id section) (Sect.title section)
          (Sect.fields section ++ [Field.mk u "text" EmptyString None]).

(** ** TemplateBuilder *)

Record Builder : Type := mkBuilder {
  templates : list Template.t;
  currentTemplate : option Template.t   (* [None] is [null] *)
}.

(** [{ ...t, sections: updatedSections }] *)
Definition with_sections (t : Template.t) (updatedSections : list Sect.t)
  : Template.t :=
  Template.mk (Template.id t) (Template.name t) updatedSections.

(** The two state updates shared by [updateSection] and "Add Section". *)
Definition set_sections (st : Builder) (cur : Template.t)
    (updatedSections : list Sect.t) : Builder :=
  mkBuilder
    ((fun t => if String.eqb (Template.id t) (Template.id cur)
               then with_sections t updatedSections else t)
       <$> templates st)
    (Some (with_sections cur updatedSections)).

(** [u1], [u2]: the values of the two [uuid()] calls, in evaluation order. *)
Definition createTemplate (st : Builder) (u1 u2 : string) : Builder :=
  if 5 <=? length (templates st) then st
  else
    let newTemplate :=
      Template.mk u1 ("Template " +:+ pretty (length (templates st) + 1))
                  [Sect.mk u2 "Section 1" []] in
    mkBuilder (templates st ++ [newTemplate]) (Some newTemplate).

Definition updateSection (st : Builder) (index : nat) (updated : Sect.t)
  : outcome Builder :=
  match currentTemplate st with
  | None => Throw TypeError
  | Some cur =>
      updatedSections ← array_assign (Template.sections cur) index updated;
      Ok (set_sections st cur updatedSections)
  end.

(** The "Add Section" button; [u] is the value of its [uuid()] call. *)
Definition addSection (st : Builder) (u : string) : outcome Builder :=
  match currentTemplate st with
  | None => Throw TypeError
  | Some cur =>
      let newSection := Sect.mk u EmptyString [] in
      let updatedSections := Template.sections cur ++ [newSection] in
      Ok (set_sections st cur updatedSections)
  end.

(** [onClick={() => setCurrentTemplate(t)}] *)
Definition selectTemplate (st : Builder) (t : Template.t) : Builder :=
  mkBuilder (templates st) (Some t).

(** ** JavaScript objects: own properties in enumeration order

    An object is the list of its own properties in the order in which
    JavaScript enumerates them: array-index keys (canonical decimal strings
    below 2^32 - 1) in ascending numeric order, then all other keys in
    insertion order. *)

Definition is_digit (c : ascii) : bool :=
  (48 <=? nat_of_ascii c) && (nat_of_ascii c <=? 57).

Fixpoint decimal (s : string) (acc : N) : option N :=
  match s with
  | EmptyString => Some acc
  | String c r =>
      if is_digit c
      then decimal r (10 * acc + N.of_nat (nat_of_ascii c - 48))%N
      else None
  end.

(** [Some n] when [k] is the canonical decimal spelling of an array index. *)
Definition array_index (k : string) : option N :=
  match k with
  | EmptyString => None
  | String c r =>
      if Ascii.eqb c "0"%char && negb (String.eqb r EmptyString) then None
      else n ← decimal k 0%N; if (n <? 4294967295)%N then Some n else None
  end.

(** Does key [k1] come before a newly created key [k2]?  (Two different
    keys never spell the same index.) *)
Definition key_before (k1 k2 : string) : bool :=
  match array_index k1, array_index k2 with
  | Some a, Some b => (a <=? b)%N
  | Some _, None => true
  | None, Some _ => false
  | None, None => true
  end.

Section Objects.
Context {V : Type}.

(** [o[k]]; [None] is [undefined]. *)
Fixpoint get_property (o : list (string * V)) (k : string) : option V :=
  match o with
  | [] => None
  | (k', v') :: o' => if String.eqb k' k then Some v' else get_property o' k
  end.

Definition has_property (o : list (string * V)) (k : string) : bool :=
  match get_property o k with Some _ => true | None => false end.

(** Assignment to an existing property: the value changes in place. *)
Fixpoint overwrite (o : list (string * V)) (k : string) (v : V)
  : list (string * V) :=
  match o with
  | [] => []
  | (k', v') :: o' =>
      if String.eqb k' k then (k', v) :: o' else (k', v') :: overwrite o' k v
  end.

(** Creation of a property: the key takes its place in enumeration order. *)
Fixpoint create (o : list (string * V)) (k : string) (v : V)
  : list (string * V) :=
  match o with
  | [] => [(k, v)]
  | (k', v') :: o' =>
      if key_before k' k then (k', v') :: create o' k v else (k, v) :: o
  end.

(** [{ ...o, [k]: v }], and the definition of a data property by JSON.parse. *)
Definition set_property (o : list (string * V)) (k : string) (v : V)
  : list (string * V) :=
  if has_property o k then overwrite o k v else create o k v.

(** The object built by defining the properties [ms] one after the other. *)
Definition build_object (ms : list (string * V)) : list (string * V) :=
  fold_left (fun o m => set_property o (fst m) (snd m)) ms [].
End Objects.

(** ** JSON values and text *)

Unset Elimination Schemes.
Inductive json : Type :=
| JNull
| JBool (b : bool)
| JNum (literal : string)   (* a number, by the text JavaScript prints for it *)
| JStr (s : string)
| JArr (elements : list json)
| JObj (members : list (string * json)).
Set Elimination Schemes.

Definition chars (s : string) : list ascii := list_ascii_of_string s.

Definition hex_digit (n : nat) : ascii :=
  nth n (chars "0123456789abcdef") "0"%char.

Definition hex_value (c : ascii) : option nat :=
  let n := nat_of_ascii c in
  if (48 <=? n) && (n <=? 57) then Some (n - 48)
  else if (97 <=? n) && (n <=? 102) then Some (n - 87)
  else if (65 <=? n) && (n <=? 70) then Some (n - 55)
  else None.

Definition quote_mark : ascii := "034"%char.
Definition backslash : ascii := "\"%char.

(** QuoteJSONString, one code unit. *)
Definition escape_char (c : ascii) : list ascii :=
  let n := nat_of_ascii c in
  if n =? 34 then [backslash; quote_mark]
  else if n =? 92 then [backslash; backslash]
  else if n =? 8 then [backslash; "b"%char]
  else if n =? 9 then [backslash; "t"%char]
  else if n =? 10 then [backslash; "n"%char]
  else if n =? 12 then [backslash; "f"%char]
  else if n =? 13 then [backslash; "r"%char]
  else if n <? 32 then
    [backslash; "u"%char; "0"%char; "0"%char;
     hex_digit (n / 16); hex_digit (n mod 16)]
  else [c].

(** The escaped code units of [s], followed by [rest]. *)
Fixpoint escape (s : string) (rest : list ascii) : list ascii :=
  match s with
  | EmptyString => rest
  | String c r => escape_char c ++ escape r rest
  end.

Definition quote (s : string) (rest : list ascii) : list ascii :=
  quote_mark :: escape s (quote_mark :: rest).

(** The elements after the first, and the closing bracket. *)
Definition emit_elements (emit : json -> list ascii -> list ascii)
    (rest : list ascii) : list json -> list ascii :=
  fix more (l : list json) : list ascii :=
    match l with
    | [] => "]"%char :: rest
    | v :: l' => ","%char :: emit v (more l')
    end.

(** The members after the first, and the closing brace. *)
Definition emit_members (emit : json -> list ascii -> list ascii)
    (rest : list ascii) : list (string * json) -> list ascii :=
  fix more (l : list (string * json)) : list ascii :=
    match l with
    | [] => "}"%char :: rest
    | m :: l' =>
        ","%char :: quote (fst m) (":"%char :: emit (snd m) (more l'))
    end.

(** JSON.stringify without indentation: the text of [v], followed by [rest]. *)
Fixpoint emit (v : json) (rest : list ascii) : list ascii :=
  match v with
  | JNull => chars "null" ++ rest
  | JBool true => chars "true" ++ rest
  | JBool false => chars "false" ++ rest
  | JNum literal => chars literal ++ rest
  | JStr s => quote s rest
  | JArr vs =>
      "["%char ::
      match vs with
      | [] => "]"%char :: rest
      | v0 :: vs' => emit v0 (emit_elements emit rest vs')
      end
  | JObj ms =>
      "{"%char ::
      match ms with
      | [] => "}"%char :: rest
      | m0 :: ms' =>
          quote (fst m0)
                (":"%char :: emit (snd m0) (emit_members emit rest ms'))
      end
  end.

Definition JSON_stringify (v : json) : string :=
  string_of_list_ascii (emit v []).

(** ** JSON.parse *)

Definition is_ws (c : ascii) : bool :=
  let n := nat_of_ascii c in
  (n =? 32) || (n =? 9) || (n =? 10) || (n =? 13).

Fixpoint skip_ws (s : list ascii) : list ascii :=
  match s with
  | c :: r => if is_ws c then skip_ws r else s
  | [] => []
  end.

Fixpoint strip_prefix (p s : list ascii) : option (list ascii) :=
  match p with
  | [] => Some s
  | a :: p' =>
      match s with
      | b :: s' => if Ascii.eqb a b then strip_prefix p' s' else None
      | [] => None
      end
  end.

(** The character a single-letter escape stands for. *)
Definition unescape (e : ascii) : option ascii :=
  let n := nat_of_ascii e in
  if n =? 34 then Some quote_mark
  else if n =? 92 then Some backslash
  else if n =? 47 then Some "/"%char
  else if n =? 98 then Some "008"%char
  else if n =? 102 then Some "012"%char
  else if n =? 110 then Some "010"%char
  else if n =? 114 then Some "013"%char
  else if n =? 116 then Some "009"%char
  else None.

Definition hex4 (h1 h2 h3 h4 : ascii) : option nat :=
  a ← hex_value h1; b ← hex_value h2; c ← hex_value h3; d ← hex_value h4;
  Some (((a * 16 + b) * 16 + c) * 16 + d).

(** The rest of a string literal, after its opening quotation mark. *)
Fixpoint parse_chars (s : list ascii) : outcome (string * list ascii) :=
  match s with
  | [] => Throw SyntaxError
  | c :: r =>
      if Ascii.eqb c quote_mark then Ok (EmptyString, r)
      else if Ascii.eqb c backslash then
        match r with
        | [] => Throw SyntaxError
        | e :: r1 =>
            if Ascii.eqb e "u"%char then
              match r1 with
              | h1 :: h2 :: h3 :: h4 :: r2 =>
                  match hex4 h1 h2 h3 h4 with
                  | None => Throw SyntaxError
                  | Some n =>
                      if n <? 256 then
                        p ← parse_chars r2;
                        Ok (String (ascii_of_nat n) (fst p), snd p)
                      else OutOfModel
                  end
              | _ => Throw SyntaxError
              end
            else
              match unescape e with
              | None => Throw SyntaxError
              | Some c' => p ← parse_chars r1; Ok (String c' (fst p), snd p)
              end
        end
      else if nat_of_ascii c <? 32 then Throw SyntaxError
      else p ← parse_chars r; Ok (String c (fst p), snd p)
  end.

Fixpoint span_digits (s : list ascii) : list ascii * list ascii :=
  match s with
  | c :: r =>
      if is_digit c then let p := span_digits r in (c :: fst p, snd p)
      else ([], s)
  | [] => ([], [])
  end.

(** An optional character satisfying [p]. *)
Definition optional (p : ascii -> bool) (s : list ascii)
  : list ascii * list ascii :=
  match s with
  | c :: r => if p c then ([c], r) else ([], s)
  | [] => ([], s)
  end.

(** One or more digits. *)
Definition digits1 (s : list ascii) : outcome (list ascii * list ascii) :=
  let p := span_digits s in
  match fst p with
  | [] => Throw SyntaxError
  | ds => Ok (ds, snd p)
  end.

(** int: "0", or a non-zero digit followed by digits. *)
Definition number_int (s : list ascii) : outcome (list ascii * list ascii) :=
  match s with
  | [] => Throw SyntaxError
  | d :: r =>
      if Ascii.eqb d "0"%char then Ok ([d], r)
      else if is_digit d then
        let p := span_digits r in Ok (d :: fst p, snd p)
      else Throw SyntaxError
  end.

(** frac: nothing, or "." and digits. *)
Definition number_frac (s : list ascii) : outcome (list ascii * list ascii) :=
  match s with
  | c :: r =>
      if Ascii.eqb c "."%char
      then p ← digits1 r; Ok (c :: fst p, snd p)
      else Ok ([], s)
  | [] => Ok ([], s)
  end.

(** exp: nothing, or "e" or "E", an optional sign, and digits. *)
Definition number_exp (s : list ascii) : outcome (list ascii * list ascii) :=
  match s with
  | c :: r =>
      if Ascii.eqb c "e"%char || Ascii.eqb c "E"%char then
        let sign :=
          optional (fun x => Ascii.eqb x "+"%char || Ascii.eqb x "-"%char) r in
        p ← digits1 (snd sign); Ok (c :: fst sign ++ fst p, snd p)
      else Ok ([], s)
  | [] => Ok ([], s)
  end.

(** "-"? int frac? exp?  The result is the literal's text. *)
Definition parse_number (s : list ascii) : outcome (string * list ascii) :=
  let sign := optional (fun x => Ascii.eqb x "-"%char) s in
  int ← number_int (snd sign);
  frac ← number_frac (snd int);
  exp ← number_exp (snd frac);
  Ok (string_of_list_ascii (fst sign ++ fst int ++ fst frac ++ fst exp),
      snd exp).

(** A number literal whose value is an integer of magnitude at most 2^53,
    written without fraction or exponent, and not "-0": JavaScript reads it
    exactly and prints it with the same characters.  For the other
    literals the double they denote, and so the text JSON.stringify prints
    for it, is not computed here. *)
Definition safe_integer (literal : string) : bool :=
  let digits :=
    match literal with
    | String c r => if Ascii.eqb c "-"%char then r else literal
    | EmptyString => literal
    end in
  match decimal digits 0%N with
  | Some n => (n <=? 9007199254740992)%N && negb (String.eqb literal "-0")
  | None => false
  end.

Definition keyword (word : string) (v : json) (s : list ascii)
  : outcome (json * list ascii) :=
  match strip_prefix (chars word) s with
  | Some rest => Ok (v, rest)
  | None => Throw SyntaxError
  end.

(** Recursive descent on the JSON grammar.  [fuel] bounds the nesting of
    calls; [JSON_parse] below supplies enough of it for any text (lemma
    [parse_fuel]). *)
Fixpoint parse_value (fuel : nat) (s : list ascii) {struct fuel}
  : outcome (json * list ascii) :=
  match fuel with
  | 0 => OutOfModel
  | S fuel' =>
      match skip_ws s with
      | [] => Throw SyntaxError
      | c :: r =>
          if Ascii.eqb c "{"%char then
            match skip_ws r with
            | [] => Throw SyntaxError
            | c' :: r' =>
                if Ascii.eqb c' "}"%char then Ok (JObj [], r')
                else p ← parse_members fuel' (c' :: r');
                     Ok (JObj (build_object (fst p)), snd p)
            end
          else if Ascii.eqb c "["%char then
            match skip_ws r with
            | [] => Throw SyntaxError
            | c' :: r' =>
                if Ascii.eqb c' "]"%char then Ok (JArr [], r')
                else p ← parse_elements fuel' (c' :: r');
                     Ok (JArr (fst p), snd p)
            end
          else if Ascii.eqb c quote_mark then
            p ← parse_chars r; Ok (JStr (fst p), snd p)
          else if Ascii.eqb c "n"%char then keyword "ull" JNull r
          else if Ascii.eqb c "t"%char then keyword "rue" (JBool true) r
          else if Ascii.eqb c "f"%char then keyword "alse" (JBool false) r
          else p ← parse_number (c :: r);
               if safe_integer (fst p) then Ok (JNum (fst p), snd p)
               else OutOfModel
      end
  end
with parse_elements (fuel : nat) (s : list ascii) {struct fuel}
  : outcome (list json * list ascii) :=
  match fuel with
  | 0 => OutOfModel
  | S fuel' =>
      p ← parse_value fuel' s;
      match skip_ws (snd p) with
      | [] => Throw SyntaxError
      | c :: r =>
          if Ascii.eqb c ","%char then
            q ← parse_elements fuel' r; Ok (fst p :: fst q, snd q)
          else if Ascii.eqb c "]"%char then Ok ([fst p], r)
          else Throw SyntaxError
      end
  end
with parse_members (fuel : nat) (s : list ascii) {struct fuel}
  : outcome (list (string * json) * list ascii) :=
  match fuel with
  | 0 => OutOfModel
  | S fuel' =>
      match skip_ws s with
      | [] => Throw SyntaxError
      | c :: r =>
          if negb (Ascii.eqb c quote_mark) then Throw SyntaxError
          else
            k ← parse_chars r;
            match skip_ws (snd k) with
            | [] => Throw SyntaxError
            | c1 :: r1 =>
                if negb (Ascii.eqb c1 ":"%char) then Throw SyntaxError
                else
                  p ← parse_value fuel' r1;
                  match skip_ws (snd p) with
                  | [] => Throw SyntaxError
                  | c2 :: r2 =>
                      if Ascii.eqb c2 ","%char then
                        q ← parse_members fuel' r2;
                        Ok ((fst k, fst p) :: fst q, snd q)
                      else if Ascii.eqb c2 "}"%char
                      then Ok ([(fst k, fst p)], r2)
                      else Throw SyntaxError
                  end
            end
      end
  end.

(** JSON.parse(text): one value, surrounded by optional white space. *)
Definition JSON_parse (text : string) : outcome json :=
  let s := chars text in
  p ← parse_value (2 * length s + 2) s;
  match skip_ws (snd p) with
  | [] => Ok (fst p)
  | _ :: _ => Throw SyntaxError
  end.

(** ** The data model as JSON values

    The objects the components build, with their properties in the order
    the object literals of [src/App.js] create them; [options] is created
    last, by the options input of the FieldEditor. *)

Definition field_to_json (f : Field.t) : json :=
  JObj ([("id", JStr (Field.id f)); ("type", JStr (Field.type f));
         ("label", JStr (Field.label f))]
        ++ match Field.options f with
           | Some os => [("options", JArr (JStr <$> os))]
           | None => []
           end).

Definition section_to_json (s : Sect.t) : json :=
  JObj [("id", JStr (Sect.id s)); ("title", JStr (Sect.title s));
        ("fields", JArr (field_to_json <$> Sect.fields s))].

Definition template_to_json (t : Template.t) : json :=
  JObj [("id", JStr (Template.id t)); ("name", JStr (Template.name t));
        ("sections", JArr (section_to_json <$> Template.sections t))].

Definition templates_to_json (ts : list Template.t) : json :=
  JArr (template_to_json <$> ts).

(** Reading a JSON value at the types of the data model: the properties
    the components read, each of the expected kind. *)

Definition as_string (v : json) : option string :=
  match v with JStr s => Some s | _ => None end.

Definition as_array (v : json) : option (list json) :=
  match v with JArr vs => Some vs | _ => None end.

Definition as_object (v : json) : option (list (string * json)) :=
  match v with JObj ms => Some ms | _ => None end.

Definition json_to_field (v : json) : option Field.t :=
  o ← as_object v;
  id ← get_property o "id" ≫= as_string;
  type ← get_property o "type" ≫= as_string;
  label ← get_property o "label" ≫= as_string;
  options ←
    match get_property o "options" with
    | None => Some None
    | Some w => ws ← as_array w; os ← mapM as_string ws; Some (Some os)
    end;
  Some (Field.mk id type label options).

Definition json_to_section (v : json) : option Sect.t :=
  o ← as_object v;
  id ← get_property o "id" ≫= as_string;
  title ← get_property o "title" ≫= as_string;
  fs ← get_property o "fields" ≫= as_array;
  fields ← mapM json_to_field fs;
  Some (Sect.mk id title fields).

Definition json_to_template (v : json) : option Template.t :=
  o ← as_object v;
  id ← get_property o "id" ≫= as_string;
  name ← get_property o "name" ≫= as_string;
  ss ← get_property o "sections" ≫= as_array;
  sections ← mapM json_to_section ss;
  Some (Template.mk id name sections).

Definition json_to_templates (v : json) : option (list Template.t) :=
  vs ← as_array v; mapM json_to_template vs.

(** Equality of JSON values. *)
Fixpoint json_eqb (a b : json) : bool :=
  match a, b with
  | JNull, JNull => true
  | JBool x, JBool y => Bool.eqb x y
  | JNum x, JNum y => String.eqb x y
  | JStr x, JStr y => String.eqb x y
  | JArr xs, JArr ys =>
      (fix all2 (xs ys : list json) : bool :=
         match xs, ys with
         | [], [] => true
         | x :: xs', y :: ys' => json_eqb x y && all2 xs' ys'
         | _, _ => false
         end) xs ys
  | JObj xs, JObj ys =>
      (fix all2 (xs ys : list (string * json)) : bool :=
         match xs, ys with
         | [], [] => true
         | x :: xs', y :: ys' =>
             String.eqb (fst x) (fst y) && json_eqb (snd x) (snd y)
             && all2 xs' ys'
         | _, _ => false
         end) xs ys
  | _, _ => false
  end.

(** The records a JSON value stands for: those whose objects are exactly
    the value, property by property and in the same order.  The components
    copy the objects they are given with [{ ...x }], so properties the
    records do not have, or another order of the properties, would travel
    with them; such values have no record here. *)
Definition exactly_templates (v : json) : option (list Template.t) :=
  ts ← json_to_templates v;
  if json_eqb (templates_to_json ts) v then Some ts else None.

(** ** localStorage *)

Definition getItem (ls : gmap string string) (key : string) : option string :=
  ls !! key.

Definition setItem (ls : gmap string string) (key value : string)
  : gmap string string :=
  <[key := value]> ls.

(** Truthiness of a string: only the empty string is falsy. *)
Definition truthy (s : string) : bool := negb (String.eqb s EmptyString).

(** ** TemplateBuilder: initial state and the persistence effect *)

(** [stored ? JSON.parse(stored) : []], the initializer of [templates]. *)
Definition load_templates (ls : gmap string string) : outcome json :=
  match getItem ls "templates" with
  | Some stored => if truthy stored then JSON_parse stored else Ok (JArr [])
  | None => Ok (JArr [])
  end.

(** [localStorage.setItem("templates", JSON.stringify(templates))] *)
Definition persist (ts : list Template.t) (ls : gmap string string)
  : gmap string string :=
  setItem ls "templates" (JSON_stringify (templates_to_json ts)).

(** The loaded value as a template set, when it is exactly the JSON of
    one. *)
Definition initial_templates (ls : gmap string string)
  : outcome (list Template.t) :=
  v ← load_templates ls;
  match exactly_templates v with
  | Some ts => Ok ts
  | None => OutOfModel
  end.

(** First render of the TemplateBuilder, followed by its effect. *)
Definition TemplateBuilder_mount (ls : gmap string string)
  : outcome (Builder * gmap string string) :=
  ts ← initial_templates ls;
  Ok (mkBuilder ts None, persist ts ls).

(** ** The controls of the builder and the events they deliver *)

Inductive field_event : Type :=
| ChangeType (v : string)
| ChangeLabel (v : string)
| ChangeOptions (v : string)
| ClickDelete.

Inductive section_event : Type :=
| ChangeTitle (v : string)
| OnField (i : nat) (e : field_event)
| ClickAddField (u : string).

Inductive builder_event : Type :=
| ClickCreate (u1 u2 : string)
| ClickTemplate (k : nat)
| OnSection (j : nat) (e : section_event)
| ClickAddSection (u : string).

Definition mem (x : string) (l : list string) : bool :=
  existsb (String.eqb x) l.

(** The FieldEditor [i] of a Section exists when [section.fields] has a
    position [i]; its type select offers [FIELD_TYPES]; its options input
    exists when the field's type is [enum]. *)
Definition Section_handle (section : Sect.t) (e : section_event)
  : outcome Sect.t :=
  match e with
  | ChangeTitle v => Ok (Section_title section v)
  | ClickAddField u => Ok (Section_addField section u)
  | OnField i fe =>
      match Sect.fields section !! i with
      | None => OutOfModel
      | Some field =>
          match fe with
          | ChangeType v =>
              if mem v FIELD_TYPES
              then updateField section i (FieldEditor_type field v)
              else OutOfModel
          | ChangeLabel v => updateField section i (FieldEditor_label field v)
          | ChangeOptions v =>
              if String.eqb (Field.type field) "enum"
              then updateField section i (FieldEditor_options field v)
              else OutOfModel
          | ClickDelete => Ok (deleteField section i)
          end
      end
  end.

(** The Sections and the "Add Section" button exist when a template is
    selected; the k-th template button exists when [templates] has a
    position [k]. *)
Definition TemplateBuilder_handle (st : Builder) (e : builder_event)
  : outcome Builder :=
  match e with
  | ClickCreate u1 u2 => Ok (createTemplate st u1 u2)
  | ClickTemplate k =>
      match templates st !! k with
      | Some t => Ok (selectTemplate st t)
      | None => OutOfModel
      end
  | OnSection j se =>
      match currentTemplate st with
      | None => OutOfModel
      | Some cur =>
          match Template.sections cur !! j with
          | None => OutOfModel
          | Some section =>
              s ← Section_handle section se; updateSection st j s
          end
      end
  | ClickAddSection u =>
      match currentTemplate st with
      | None => OutOfModel
      | Some _ => addSection st u
      end
  end.

Fixpoint run (st : Builder) (es : list builder_event) : outcome Builder :=
  match es with
  | [] => Ok st
  | e :: es' => st' ← TemplateBuilder_handle st e; run st' es'
  end.

(** Does the handler call [setTemplates]?  Then the effect runs after the
    next render. *)
Definition calls_setTemplates (st : Builder) (e : builder_event) : bool :=
  match e with
  | ClickCreate _ _ => negb (5 <=? length (templates st))
  | ClickTemplate _ => false
  | OnSection _ _ => true
  | ClickAddSection _ => true
  end.

Definition TemplateBuilder_step (w : Builder * gmap string string)
    (e : builder_event) : outcome (Builder * gmap string string) :=
  st' ← TemplateBuilder_handle (fst w) e;
  Ok (st', if calls_setTemplates (fst w) e
           then persist (templates st') (snd w) else snd w).

Fixpoint run_steps (w : Builder * gmap string string)
    (es : list builder_event) : outcome (Builder * gmap string string) :=
  match es with
  | [] => Ok w
  | e :: es' => w' ← TemplateBuilder_step w e; run_steps w' es'
  end.

(** ** DynamicForm *)

(** What a control passes to [handleChange]: [e.target.value] of an input
    or select, [e.target.checked] of a checkbox. *)
Inductive answer : Type :=
| Text (s : string)
| Checked (b : bool).

Definition answer_to_json (a : answer) : json :=
  match a with
  | Text s => JStr s
  | Checked b => JBool b
  end.

Definition formData_to_json (formData : list (string * answer)) : json :=
  JObj ((fun m => (fst m, answer_to_json (snd m))) <$> formData).

(** [setFormData({ ...formData, [fieldId]: value })] *)
Definition handleChange (formData : list (string * answer))
    (fieldId : string) (value : answer) : list (string * answer) :=
  set_property formData fieldId value.

(** [[...prev]]: the elements of an array, the characters of a string;
    nothing else that JSON.parse returns is iterable. *)
Definition spread (prev : json) : outcome (list json) :=
  match prev with
  | JArr vs => Ok vs
  | JStr s => Ok ((fun c => JStr (String c EmptyString)) <$> chars s)
  | _ => Throw TypeError
  end.

Definition form_data_key (template : Template.t) : string :=
  "form_data_" +:+ Template.id template.

(** [a || b] on a value that is a string or [null]. *)
Definition or_else (a : option string) (b : string) : string :=
  match a with
  | Some s => if truthy s then s else b
  | None => b
  end.

Record Submitted : Type := mkSubmitted {
  storage_after : gmap string string;
  alerts : list string;
  formData_after : list (string * answer)
}.

(** [JSON.parse(localStorage.getItem(key) || "[]")] *)
Definition read_log (template : Template.t) (ls : gmap string string)
  : outcome json :=
  JSON_parse (or_else (getItem ls (form_data_key template)) "[]").

Definition handleSubmit (template : Template.t)
    (formData : list (string * answer)) (ls : gmap string string)
  : outcome Submitted :=
  let key := form_data_key template in
  prev ← read_log template ls;
  items ← spread prev;
  let ls' :=
    setItem ls key (JSON_stringify (JArr (items ++ [formData_to_json formData])))
  in
  Ok (mkSubmitted ls' ["Form submitted!"] []).

(** A submission log: the array of the answer mappings submitted so far. *)
Definition log_to_json (log : list (list (string * answer))) : json :=
  JArr (formData_to_json <$> log).

(** ** Values that JSON.parse rebuilds from their text *)

(** Keys in enumeration order, without repetition. *)
Fixpoint canonical_keys (ks : list string) : bool :=
  match ks with
  | [] => true
  | k :: ks' =>
      forallb (fun k' => negb (String.eqb k k') && key_before k k') ks'
      && canonical_keys ks'
  end.

(** No number literal; every object has its keys in enumeration order. *)
Fixpoint canonical (v : json) : bool :=
  match v with
  | JNull | JBool _ | JStr _ => true
  | JNum _ => false
  | JArr vs => forallb canonical vs
  | JObj ms =>
      canonical_keys (fst <$> ms) && forallb (fun m => canonical (snd m)) ms
  end.

(** The nesting of parser calls the text of [v] gives rise to. *)
Fixpoint json_size (v : json) : nat :=
  match v with
  | JArr vs => S (list_sum ((fun v => S (json_size v)) <$> vs))
  | JObj ms => S (list_sum ((fun m => S (json_size (snd m))) <$> ms))
  | _ => 1
  end.

(** [v] is recovered from its text, whatever follows it, with fuel for its
    size. *)
Definition parses_back (v : json) : Prop :=
  forall fuel rest,
    json_size v <= fuel -> parse_value fuel (emit v rest) = Ok (v, rest).

(** The text of [v] has at least [json_size v] characters. *)
Definition long_enough (v : json) : Prop :=
  forall rest, json_size v + length rest <= length (emit v rest).

(** ** Specification predicates *)

(** After a section edit of the selected template [cur] in state [st]: the
    selected copy and every entry of the template set with the id of [cur]
    carry the section sequence [updatedSections]; the other entries are
    as before. *)
Definition dual_update (st : Builder) (cur : Template.t) (st' : Builder)
    (updatedSections : list Sect.t) : Prop :=
  currentTemplate st' = Some (with_sections cur updatedSections) /\
  length (templates st') = length (templates st) /\
  (forall k t, templates st !! k = Some t ->
     Template.id t = Template.id cur ->
     templates st' !! k = Some (with_sections t updatedSections)) /\
  (forall k t, templates st !! k = Some t ->
     Template.id t <> Template.id cur ->
     templates st' !! k = Some t) /\
  (forall t', t' ∈ templates st' ->
     Template.id t' = Template.id cur ->
     Template.sections t' = updatedSections) /\
  (forall k t, templates st !! k = Some t ->
     Template.id t = Template.id cur ->
     Template.name t = Template.name cur ->
     templates st' !! k = currentTemplate st').

(** The selected template is one of the entries of the template set. *)
Definition selected_in_set (st : Builder) : Prop :=
  forall cur, currentTemplate st = Some cur -> cur ∈ templates st.

(** The storage holds the text of the builder's template set. *)
Definition in_sync (w : Builder * gmap string string) : Prop :=
  getItem (snd w) "templates"
  = Some (JSON_stringify (templates_to_json (templates (fst w)))).

(** ** FieldEditor: the values its inputs show *)

(** [a.join(",")] *)
Fixpoint join_comma (l : list string) : string :=
  match l with
  | [] => EmptyString
  | x :: l' =>
      match l' with
      | [] => x
      | _ :: _ => x +:+ "," +:+ join_comma l'
      end
  end.

(** [value={field.options?.join(",") || ""}] of the options input *)
Definition FieldEditor_options_value (field : Field.t) : string :=
  or_else (join_comma <$> Field.options field) EmptyString.

(** ** DynamicForm: what a field renders *)

Definition answer_truthy (a : answer) : bool :=
  match a with
  | Text s => truthy s
  | Checked b => b
  end.

(** The names of the members of [Object.prototype], which the object
    [formData] inherits: reading one of them finds the member when the
    object has no own property of that name. *)
Definition Object_prototype : list string :=
  ["constructor"; "__defineGetter__"; "__defineSetter__"; "hasOwnProperty";
   "__lookupGetter__"; "__lookupSetter__"; "isPrototypeOf";
   "propertyIsEnumerable"; "toString"; "valueOf"; "__proto__";
   "toLocaleString"].

(** What a control is given as its value: an answer, or the member of
    [Object.prototype] of that name (a function; for [__proto__] the
    prototype object). *)
Inductive shown : Type :=
| Answer (a : answer)
| Member (name : string).

(** [formData[id]]: the own property, else the inherited member, else
    [undefined]. *)
Definition read_answer (formData : list (string * answer)) (id : string)
  : option shown :=
  match get_property formData id with
  | Some a => Some (Answer a)
  | None => if mem id Object_prototype then Some (Member id) else None
  end.

(** [x || d]; functions and objects are truthy. *)
Definition or_answer (x : option shown) (d : answer) : shown :=
  match x with
  | Some (Answer a) => if answer_truthy a then Answer a else Answer d
  | Some (Member name) => Member name
  | None => Answer d
  end.

Inductive element : Type :=
| Caption (text : string)                          (* the <label> *)
| TextInput (value : shown)
| NumberInput (value : shown)
| Checkbox (checked : shown)
| Select (value : shown) (options : list string)   (* the option values *)
| StaticText (text : string).

(** The children of the [div] of one field: the caption, then one
    conditional per field type, in the order of the source. *)
Definition DynamicForm_field (formData : list (string * answer))
    (field : Field.t) : list element :=
  let v := read_answer formData (Field.id field) in
  let type := Field.type field in
  [Caption (Field.label field)]
  ++ (if String.eqb type "text"
      then [TextInput (or_answer v (Text EmptyString))] else [])
  ++ (if String.eqb type "number"
      then [NumberInput (or_answer v (Text EmptyString))] else [])
  ++ (if String.eqb type "boolean"
      then [Checkbox (or_answer v (Checked false))] else [])
  ++ (if String.eqb type "enum"
      then [Select (or_answer v (Text EmptyString))
                   (EmptyString :: default [] (Field.options field))]
      else [])
  ++ (if String.eqb type "label"
      then [StaticText (Field.label field)] else []).

(** The values the [onChange] of an element can pass to [handleChange]:
    the text of an input, the value of one of the options of a select, the
    state of a checkbox. *)
Definition delivers (el : element) (value : answer) : bool :=
  match el, value with
  | TextInput _, Text _ => true
  | NumberInput _, Text _ => true
  | Checkbox _, Checked _ => true
  | Select _ options, Text v => mem v options
  | _, _ => false
  end.

(** All fields of a template, section after section. *)
Definition template_fields (template : Template.t) : list Field.t :=
  section ← Template.sections template; Sect.fields section.

(** Is there a control of the form of [template] that calls
    [handleChange(fieldId, value)]? *)
Definition form_offers (template : Template.t)
    (formData : list (string * answer)) (fieldId : string) (value : answer)
  : bool :=
  existsb (fun field =>
             String.eqb (Field.id field) fieldId
             && existsb (fun el => delivers el value)
                        (DynamicForm_field formData field))
          (template_fields template).

(** The answers after a series of [handleChange] calls. *)
Definition record_all (formData : list (string * answer))
    (changes : list (string * answer)) : list (string * answer) :=
  fold_left (fun fd c => handleChange fd (fst c) (snd c)) changes formData.

(** The storage after submitting the answer mappings [ms] one after the
    other. *)
Fixpoint submit_all (template : Template.t)
    (ms : list (list (string * answer))) (ls : gmap string string)
  : outcome (gmap string string) :=
  match ms with
  | [] => Ok ls
  | m :: ms' =>
      r ← handleSubmit template m ls; submit_all template ms' (storage_after r)
  end.

(** ** App: the root component

    [templates] is loaded by the initializer and never set again.
    [selectedTemplate] decides which child is rendered; a child that
    replaces one of the other kind starts from its initial state, a
    DynamicForm that receives another template keeps its state. *)

Inductive view : Type :=
| Building (b : Builder)                            (* selectedTemplate null *)
| Filling (template : Template.t) (formData : list (string * answer)).

Record App : Type := mkApp {
  app_templates : list Template.t;
  app_view : view;
  app_storage : gmap string string
}.

Definition selectedTemplate (a : App) : option Template.t :=
  match app_view a with
  | Building _ => None
  | Filling template _ => Some template
  end.

(** First render: both initializers read the storage, then the effect of
    the TemplateBuilder runs. *)
Definition App_mount (ls : gmap string string) : outcome App :=
  ts ← initial_templates ls;
  w ← TemplateBuilder_mount ls;
  Ok (mkApp ts (Building (fst w)) (snd w)).

Inductive app_event : Type :=
| ClickBuild                                  (* "Build Template" *)
| ClickUse (k : nat)                          (* "Use <name>" of template k *)
| InBuilder (e : builder_event)
| FormChange (fieldId : string) (value : answer)
| FormSubmit.

Definition App_handle (a : App) (e : app_event) : outcome App :=
  match e, app_view a with
  | ClickBuild, Building _ => Ok a
  | ClickBuild, Filling _ _ =>
      w ← TemplateBuilder_mount (app_storage a);
      Ok (mkApp (app_templates a) (Building (fst w)) (snd w))
  | ClickUse k, v =>
      match app_templates a !! k with
      | None => OutOfModel
      | Some t =>
          let formData :=
            match v with Building _ => [] | Filling _ fd => fd end in
          Ok (mkApp (app_templates a) (Filling t formData) (app_storage a))
      end
  | InBuilder be, Building b =>
      w ← TemplateBuilder_step (b, app_storage a) be;
      Ok (mkApp (app_templates a) (Building (fst w)) (snd w))
  | InBuilder _, Filling _ _ => OutOfModel
  | FormChange fieldId value, Filling t fd =>
      if form_offers t fd fieldId value
      then Ok (mkApp (app_templates a)
                     (Filling t (handleChange fd fieldId value))
                     (app_storage a))
      else OutOfModel
  | FormChange _ _, Building _ => OutOfModel
  | FormSubmit, Filling t fd =>
      r ← handleSubmit t fd (app_storage a);
      Ok (mkApp (app_templates a) (Filling t (formData_after r))
                (storage_after r))
  | FormSubmit, Building _ => OutOfModel
  end.

Fixpoint App_run (a : App) (es : list app_event) : outcome App :=
  match es with
  | [] => Ok a
  | e :: es' => a' ← App_handle a e; App_run a' es'
  end.

(** ** Invariants of the builder *)

(** Position [k] of the template set holds "Template k+1". *)
Definition named_in_order (ts : list Template.t) : Prop :=
  forall k t, ts !! k = Some t ->
              Template.name t = "Template " +:+ pretty (k + 1).

(** Every "Create New Template" of the run receives an id that no template
    of the set has. *)
Fixpoint creates_fresh (st : Builder) (es : list builder_event) : Prop :=
  match es with
  | [] => True
  | e :: es' =>
      match e with
      | ClickCreate u1 _ => u1 ∉ Template.id <$> templates st
      | _ => True
      end /\
      match TemplateBuilder_handle st e with
      | Ok st' => creates_fresh st' es'
      | _ => True
      end
  end.

(** Template ids are pairwise distinct and the selected template is an
    entry of the set. *)
Definition well_formed (st : Builder) : Prop :=
  NoDup (Template.id <$> templates st) /\ selected_in_set st.

(** An "Add Field" event carries an id no field of the section has. *)
Definition field_id_fresh (section : Sect.t) (e : section_event) : Prop :=
  match e with
  | ClickAddField u => u ∉ Field.id <$> Sect.fields section
  | _ => True
  end.

(** Every field of the template has one of the types of [FIELD_TYPES]. *)
Definition types_offered (t : Template.t) : Prop :=
  Forall (fun s => Forall (fun f => mem (Field.type f) FIELD_TYPES = true)
                          (Sect.fields s))
         (Template.sections t).

Definition builder_types_offered (st : Builder) : Prop :=
  Forall types_offered (templates st) /\
  (forall cur, currentTemplate st = Some cur -> types_offered cur).

(** * Properties *)

(** ** Arrays *)

Section ArrayFacts.
Context {A : Type}.
Implicit Types (a : list A) (x : A).

Lemma array_assign_in_range a i x :
  i < length a -> array_assign a i x = Ok (<[i := x]> a).
Proof.
  intros Hi. unfold array_assign.
  destruct (Nat.ltb_spec i (length a)); [reflexivity | lia].
Qed.

Lemma array_assign_at_length a x :
  array_assign a (length a) x = Ok (a ++ [x]).
Proof.
  unfold array_assign.
  destruct (Nat.ltb_spec (length a) (length a)); [lia |].
  now rewrite Nat.eqb_refl.
Qed.

Lemma splice_one a i x :
  a !! i = Some x ->
  exists pre post,
    a = pre ++ x :: post /\ length pre = i /\ splice a i 1 = pre ++ post.
Proof.
  intros Hx. exists (take i a), (drop (S i) a). split; [| split].
  - symmetry. now apply take_drop_middle.
  - apply length_take_le. apply lookup_lt_Some in Hx. lia.
  - unfold splice. now rewrite Nat.add_1_r.
Qed.

Lemma splice_beyond a i : length a <= i -> splice a i 1 = a.
Proof.
  intros Hi. unfold splice.
  rewrite take_ge by lia. rewrite drop_ge by lia. apply app_nil_r.
Qed.
End ArrayFacts.

(** ** FieldEditor and Section *)

Lemma updateField_in_range (section : Sect.t) (i : nat) (f : Field.t) :
  i < length (Sect.fields section) ->
  updateField section i f
  = Ok (Sect.mk (Sect.id section) (Sect.title section)
                (<[i := f]> (Sect.fields section))).
Proof.
  intros Hi. unfold updateField.
  now rewrite array_assign_in_range.
Qed.

(** C9.  A field of type [enum] whose [options] value is [v] still has the
    [options] value [v] after the type select of its FieldEditor changes the
    type to a non-enum type; id and label are kept as well, and the Section
    puts this field back at the position of the edited one. *)
Theorem C9_type_change_keeps_options
    (section : Sect.t) (i : nat) (field : Field.t)
    (v : option (list string)) (t : string)
    (Hfield : Sect.fields section !! i = Some field)
    (Henum : Field.type field = "enum")
    (Hoptions : Field.options field = v)
    (Hoffered : In t FIELD_TYPES)
    (Hother : t <> "enum") :
  Field.options (FieldEditor_type field t) = v /\
  Field.type (FieldEditor_type field t) = t /\
  Field.id (FieldEditor_type field t) = Field.id field /\
  Field.label (FieldEditor_type field t) = Field.label field /\
  exists section',
    Section_handle section (OnField i (ChangeType t)) = Ok section' /\
    Sect.fields section' !! i = Some (FieldEditor_type field t) /\
    (Sect.fields section' !! i) ≫= Field.options = v.
Proof.
  assert (Hi : i < length (Sect.fields section))
    by (eapply lookup_lt_Some; eauto).
  repeat split; try assumption.
  assert (Hmem : mem t FIELD_TYPES = true).
  { unfold mem. apply existsb_exists. exists t.
    split; [assumption | apply String.eqb_refl]. }
  eexists. cbn [Section_handle]. rewrite Hfield, Hmem.
  rewrite updateField_in_range by assumption.
  split; [reflexivity |]. cbn [Sect.fields].
  rewrite list_lookup_insert_eq by assumption. now split.
Qed.

Lemma C9_witness :
  let field := Field.mk "f1" "enum" "Colour" (Some ["red"; "green"]) in
  Field.options (FieldEditor_type field "number") = Some ["red"; "green"].
Proof.
  intros field.
  apply (C9_type_change_keeps_options
           (Sect.mk "s1" "Section 1" [field]) 0 field
           (Some ["red"; "green"]) "number").
  - reflexivity.
  - reflexivity.
  - reflexivity.
  - simpl. tauto.
  - discriminate.
Defined.

(** C7.  Deleting the Field at position [i] of a section with [n] fields,
    [0 <= i < n], leaves [n - 1] fields: the sequence before position [i]
    followed by the sequence after it, in their order; nothing else of the
    section changes. *)
Theorem C7_deleteField_removes_exactly_one
    (section : Sect.t) (i : nat)
    (Hi : i < length (Sect.fields section)) :
  Section_handle section (OnField i ClickDelete)
  = Ok (deleteField section i) /\
  Sect.id (deleteField section i) = Sect.id section /\
  Sect.title (deleteField section i) = Sect.title section /\
  length (Sect.fields (deleteField section i))
  = length (Sect.fields section) - 1 /\
  (exists pre x post,
     Sect.fields section = pre ++ x :: post /\
     length pre = i /\
     Sect.fields (deleteField section i) = pre ++ post) /\
  (forall k, k < i ->
     Sect.fields (deleteField section i) !! k = Sect.fields section !! k) /\
  (forall k, i <= k ->
     Sect.fields (deleteField section i) !! k
     = Sect.fields section !! (S k)).
Proof.
  destruct (lookup_lt_is_Some_2 _ _ Hi) as [x Hx].
  destruct (splice_one _ _ _ Hx) as (pre & post & Hsplit & Hlen & Hsplice).
  split; [| split; [| split; [| split; [| split; [| split]]]]].
  - cbn [Section_handle]. now rewrite Hx.
  - reflexivity.
  - reflexivity.
  - cbn [deleteField Sect.fields]. rewrite Hsplice, Hsplit.
    rewrite !length_app. cbn [length]. lia.
  - exists pre, x, post. now repeat split.
  - intros k Hk. cbn [deleteField Sect.fields]. rewrite Hsplice, Hsplit.
    rewrite !lookup_app_l by lia. reflexivity.
  - intros k Hk. cbn [deleteField Sect.fields]. rewrite Hsplice, Hsplit.
    rewrite !lookup_app_r by lia.
    replace (S k - length pre) with (S (k - length pre)) by lia.
    reflexivity.
Qed.

Lemma C7_witness :
  let f (n : string) := Field.mk n "text" n None in
  Sect.fields (deleteField (Sect.mk "s" "t" [f "a"; f "b"; f "c"]) 1) !! 1
  = Some (f "c").
Proof.
  intros f.
  apply (proj2 (proj2 (proj2 (proj2 (proj2 (proj2
           (C7_deleteField_removes_exactly_one
              (Sect.mk "s" "t" [f "a"; f "b"; f "c"]) 1
              ltac:(simpl; lia)))))))).
  lia.
Defined.




(** ** TemplateBuilder *)

Lemma set_sections_dual (st : Builder) (cur : Template.t)
    (secs : list Sect.t) :
  dual_update st cur (set_sections st cur secs) secs.
Proof.
  unfold dual_update, set_sections. cbn [templates currentTemplate].
  split; [reflexivity |]. split; [apply length_fmap |].
  split; [| split; [| split]].
  - intros k t Hk Hid. rewrite list_lookup_fmap, Hk. cbn.
    apply String.eqb_eq in Hid. now rewrite Hid.
  - intros k t Hk Hid. rewrite list_lookup_fmap, Hk. cbn.
    apply String.eqb_neq in Hid. now rewrite Hid.
  - intros t' Hin Hid. apply list_elem_of_fmap in Hin as (t & -> & _).
    destruct (String.eqb (Template.id t) (Template.id cur)) eqn:E.
    + reflexivity.
    + apply String.eqb_neq in E. contradiction.
  - intros k t Hk Hid Hname. rewrite list_lookup_fmap, Hk. cbn.
    apply String.eqb_eq in Hid as Hid'. rewrite Hid'.
    unfold with_sections. now rewrite Hid, Hname.
Qed.

Lemma updateSection_in_range (st : Builder) (cur : Template.t)
    (index : nat) (updated : Sect.t) :
  currentTemplate st = Some cur ->
  index < length (Template.sections cur) ->
  updateSection st index updated
  = Ok (set_sections st cur (<[index := updated]> (Template.sections cur))).
Proof.
  intros Hcur Hi. unfold updateSection. rewrite Hcur.
  now rewrite array_assign_in_range.
Qed.

(** C2.  For the selected template [cur]: a section change at any position
    [index] of its section sequence, and "Add Section", give the selected
    copy and every entry of the template set with the id of [cur] the same
    updated section sequence; entries with another id are untouched, and an
    entry that had the name of [cur] is afterwards equal to the selected
    template. *)
Theorem C2_dual_update_consistent
    (st : Builder) (cur : Template.t)
    (Hcur : currentTemplate st = Some cur) :
  (forall index updated,
     index < length (Template.sections cur) ->
     exists st',
       updateSection st index updated = Ok st' /\
       dual_update st cur st' (<[index := updated]> (Template.sections cur)))
  /\
  (forall u,
     exists st',
       addSection st u = Ok st' /\
       dual_update st cur st' (Template.sections cur ++ [Sect.mk u EmptyString []])).
Proof.
  split.
  - intros index updated Hi. eexists. split.
    + apply (updateSection_in_range st cur); assumption.
    + apply set_sections_dual.
  - intros u. eexists. split.
    + unfold addSection. rewrite Hcur. reflexivity.
    + apply set_sections_dual.
Qed.

Lemma C2_witness :
  let s1 := Sect.mk "s1" "Section 1" [] in
  let t1 := Template.mk "t1" "Template 1" [s1] in
  let t2 := Template.mk "t2" "Template 2" [] in
  let st := mkBuilder [t1; t2] (Some t1) in
  exists st',
    updateSection st 0 (Section_title s1 "Intro") = Ok st' /\
    templates st' !! 0 = currentTemplate st' /\
    templates st' !! 1 = Some t2.
Proof.
  intros s1 t1 t2 st.
  destruct (proj1 (C2_dual_update_consistent st t1 eq_refl)
              0 (Section_title s1 "Intro") ltac:(simpl; lia))
    as (st' & Hok & _ & _ & _ & Hother & _ & Hsame).
  exists st'. split; [exact Hok |]. split.
  - apply (Hsame 0 t1); reflexivity.
  - apply (Hother 1 t2); [reflexivity | discriminate].
Defined.

(** In every state the builder reaches from its first render, the selected
    template is an entry of the template set: the two representations of
    the selected template never drift apart. *)

Lemma set_sections_selected (st : Builder) (cur : Template.t)
    (secs : list Sect.t) :
  cur ∈ templates st -> selected_in_set (set_sections st cur secs).
Proof.
  intros Hin cur'. unfold set_sections. cbn [currentTemplate templates].
  intros [= <-]. apply list_elem_of_fmap. exists cur. split; [| assumption].
  now rewrite String.eqb_refl.
Qed.

Lemma handle_selected_in_set (st st' : Builder) (e : builder_event) :
  selected_in_set st ->
  TemplateBuilder_handle st e = Ok st' ->
  selected_in_set st'.
Proof.
  intros Hinv.
  destruct e as [u1 u2 | k | j se | u]; cbn [TemplateBuilder_handle].
  - intros [= <-]. unfold createTemplate.
    destruct (5 <=? length (templates st)); [assumption |].
    intros cur. cbn [currentTemplate templates]. intros [= <-].
    apply elem_of_app. right. now apply list_elem_of_singleton.
  - destruct (templates st !! k) as [t |] eqn:Hk; [| discriminate].
    intros [= <-] cur. cbn [selectTemplate currentTemplate templates].
    intros [= <-]. eapply list_elem_of_lookup_2; eauto.
  - destruct (currentTemplate st) as [cur |] eqn:Hcur; [| discriminate].
    destruct (Template.sections cur !! j) as [section |]; [| discriminate].
    destruct (Section_handle section se) as [s | |];
      cbn [mbind outcome_bind]; [| discriminate | discriminate].
    unfold updateSection. rewrite Hcur.
    destruct (array_assign (Template.sections cur) j s) as [secs | |];
      cbn [mbind outcome_bind]; [| discriminate | discriminate].
    intros [= <-]. apply set_sections_selected. now apply Hinv.
  - destruct (currentTemplate st) as [cur |] eqn:Hcur; [| discriminate].
    unfold addSection. rewrite Hcur. intros [= <-].
    apply set_sections_selected. now apply Hinv.
Qed.

Lemma run_selected_in_set (es : list builder_event) (st st' : Builder) :
  selected_in_set st -> run st es = Ok st' -> selected_in_set st'.
Proof.
  revert st. induction es as [| e es IH]; intros st Hinv; cbn [run].
  - now intros [= <-].
  - destruct (TemplateBuilder_handle st e) as [st1 | |] eqn:He;
      cbn [mbind outcome_bind]; [| discriminate | discriminate].
    apply IH. eapply handle_selected_in_set; eauto.
Qed.

Lemma mount_selected_in_set (ls ls' : gmap string string) (st : Builder) :
  TemplateBuilder_mount ls = Ok (st, ls') -> selected_in_set st.
Proof.
  unfold TemplateBuilder_mount.
  destruct (initial_templates ls) as [ts | |]; cbn [mbind outcome_bind];
    [| discriminate | discriminate].
  intros [= <- _] cur. discriminate.
Qed.

(** C8.  Editing the title of section [j] of the selected template changes
    the title of that section only: its id and its fields, every other
    section, the fields of every section, and the template's id and name are
    as before; in the template set, entries with another id are untouched
    and entries with the selected id receive the same section sequence. *)
Theorem C8_title_edit_frame
    (st : Builder) (cur : Template.t) (j : nat) (section : Sect.t)
    (v : string)
    (Hcur : currentTemplate st = Some cur)
    (Hj : Template.sections cur !! j = Some section) :
  exists st' cur',
    TemplateBuilder_handle st (OnSection j (ChangeTitle v)) = Ok st' /\
    currentTemplate st' = Some cur' /\
    Template.id cur' = Template.id cur /\
    Template.name cur' = Template.name cur /\
    length (Template.sections cur') = length (Template.sections cur) /\
    Template.sections cur' !! j
    = Some (Sect.mk (Sect.id section) v (Sect.fields section)) /\
    (forall k, k <> j ->
       Template.sections cur' !! k = Template.sections cur !! k) /\
    (forall k, Sect.fields <$> Template.sections cur' !! k
               = Sect.fields <$> Template.sections cur !! k) /\
    dual_update st cur st' (Template.sections cur').
Proof.
  assert (Hlt : j < length (Template.sections cur))
    by (eapply lookup_lt_Some; eauto).
  eexists. eexists. split.
  { cbn [TemplateBuilder_handle]. rewrite Hcur, Hj.
    cbn [Section_handle mbind outcome_bind].
    apply (updateSection_in_range st cur); assumption. }
  split; [reflexivity |].
  cbn [with_sections Template.id Template.name Template.sections].
  split; [reflexivity |]. split; [reflexivity |].
  split; [apply length_insert |].
  split; [now rewrite list_lookup_insert_eq |].
  split; [intros k Hk; now rewrite list_lookup_insert_ne |].
  split; [| apply set_sections_dual].
  intros k. destruct (decide (k = j)) as [-> | Hne].
  - rewrite list_lookup_insert_eq by assumption. now rewrite Hj.
  - now rewrite list_lookup_insert_ne.
Qed.

Lemma C8_witness :
  let f := Field.mk "f1" "text" "Name" None in
  let s1 := Sect.mk "s1" "Section 1" [f] in
  let s2 := Sect.mk "s2" EmptyString [] in
  let t1 := Template.mk "t1" "Template 1" [s1; s2] in
  exists st' cur',
    TemplateBuilder_handle (mkBuilder [t1] (Some t1))
                           (OnSection 0 (ChangeTitle "Intro")) = Ok st' /\
    currentTemplate st' = Some cur' /\
    Template.sections cur' !! 0 = Some (Sect.mk "s1" "Intro" [f]) /\
    Template.sections cur' !! 1 = Some s2.
Proof.
  intros f s1 s2 t1.
  destruct (C8_title_edit_frame (mkBuilder [t1] (Some t1)) t1 0 s1 "Intro"
              eq_refl eq_refl)
    as (st' & cur' & Hok & Hcur' & _ & _ & _ & Hj & Hothers & _).
  exists st', cur'. split; [exact Hok |]. split; [exact Hcur' |].
  split; [exact Hj |].
  rewrite (Hothers 1) by discriminate. reflexivity.
Defined.

Lemma set_sections_count (st : Builder) (cur : Template.t)
    (secs : list Sect.t) :
  length (templates (set_sections st cur secs)) = length (templates st).
Proof. unfold set_sections. cbn [templates]. apply length_fmap. Qed.

Lemma updateSection_count (st st' : Builder) (index : nat) (s : Sect.t) :
  updateSection st index s = Ok st' ->
  length (templates st') = length (templates st).
Proof.
  unfold updateSection. destruct (currentTemplate st) as [cur |]; [| discriminate].
  destruct (array_assign (Template.sections cur) index s) as [secs | |];
    cbn; [| discriminate | discriminate].
  intros [= <-]. apply set_sections_count.
Qed.

Lemma createTemplate_count (st : Builder) (u1 u2 : string) :
  length (templates st) <= 5 ->
  length (templates (createTemplate st u1 u2)) <= 5.
Proof.
  intros Hle. unfold createTemplate.
  destruct (Nat.leb_spec 5 (length (templates st))); [assumption |].
  cbn [templates]. rewrite length_app. cbn [length]. lia.
Qed.

Lemma handle_count (st st' : Builder) (e : builder_event) :
  length (templates st) <= 5 ->
  TemplateBuilder_handle st e = Ok st' ->
  length (templates st') <= 5.
Proof.
  intros Hle. destruct e as [u1 u2 | k | j se | u]; cbn [TemplateBuilder_handle].
  - intros [= <-]. now apply createTemplate_count.
  - destruct (templates st !! k); [| discriminate]. now intros [= <-].
  - destruct (currentTemplate st) as [cur |]; [| discriminate].
    destruct (Template.sections cur !! j) as [section |]; [| discriminate].
    destruct (Section_handle section se) as [s | |]; cbn;
      [| discriminate | discriminate].
    intros H. apply updateSection_count in H. lia.
  - destruct (currentTemplate st) as [cur |] eqn:Hcur; [| discriminate].
    unfold addSection. rewrite Hcur. intros [= <-].
    rewrite set_sections_count. assumption.
Qed.

(** C1.  "Create New Template" with 5 or more templates leaves the state
    as it is and sets nothing; with fewer than 5 it appends exactly one
    template, made of one default section, and selects it; hence no
    sequence of builder events takes a template set of at most 5 beyond 5. *)
Theorem C1_create_template_bounded :
  (forall st u1 u2,
     5 <= length (templates st) ->
     createTemplate st u1 u2 = st /\
     calls_setTemplates st (ClickCreate u1 u2) = false) /\
  (forall st u1 u2,
     length (templates st) < 5 ->
     let newTemplate :=
       Template.mk u1 ("Template " +:+ pretty (length (templates st) + 1))
                   [Sect.mk u2 "Section 1" []] in
     templates (createTemplate st u1 u2) = templates st ++ [newTemplate] /\
     length (templates (createTemplate st u1 u2))
     = S (length (templates st)) /\
     currentTemplate (createTemplate st u1 u2) = Some newTemplate /\
     calls_setTemplates st (ClickCreate u1 u2) = true) /\
  (forall st es st',
     length (templates st) <= 5 ->
     run st es = Ok st' ->
     length (templates st') <= 5).
Proof.
  split; [| split].
  - intros st u1 u2 Hfull. unfold createTemplate, calls_setTemplates.
    destruct (Nat.leb_spec 5 (length (templates st))); [now split | lia].
  - intros st u1 u2 Hroom newTemplate.
    unfold createTemplate, calls_setTemplates. fold newTemplate.
    destruct (Nat.leb_spec 5 (length (templates st))); [lia |].
    cbn [templates currentTemplate negb].
    repeat split. rewrite length_app. cbn [length]. lia.
  - intros st es. revert st.
    induction es as [| e es IH]; intros st st' Hle; cbn [run].
    + now intros [= <-].
    + destruct (TemplateBuilder_handle st e) as [st1 | |] eqn:He; cbn;
        [| discriminate | discriminate].
      intros Hrun. apply (IH st1 st'); [| assumption].
      eapply handle_count; eauto.
Qed.

Lemma C1_witness :
  let st0 := mkBuilder [] None in
  let es := [ClickCreate "a" "sa"; ClickCreate "b" "sb"; ClickCreate "c" "sc";
             ClickCreate "d" "sd"; ClickCreate "e" "se";
             ClickCreate "f" "sf"; ClickAddSection "sg"] in
  exists st5,
    run st0 es = Ok st5 /\
    length (templates st5) <= 5 /\
    createTemplate st5 "g" "sh" = st5 /\
    length (templates (createTemplate st0 "a" "sa")) = 1.
Proof.
  intros st0 es.
  destruct (run st0 es) as [st5 | |] eqn:Hrun;
    [| vm_compute in Hrun; discriminate | vm_compute in Hrun; discriminate].
  exists st5. split; [reflexivity |].
  pose proof (proj2 (proj2 C1_create_template_bounded) st0 es st5
                ltac:(simpl; lia) Hrun) as Hle.
  split; [exact Hle |]. split.
  - apply (proj1 C1_create_template_bounded).
    vm_compute in Hrun. injection Hrun as <-. simpl. lia.
  - apply (proj1 (proj2 C1_create_template_bounded) st0 "a" "sa").
    simpl. lia.
Defined.

(** ** Objects *)

Section ObjectFacts.
Context {V : Type}.
Implicit Types (o : list (string * V)) (k : string) (v : V).

Lemma get_overwrite_eq o k v :
  has_property o k = true -> get_property (overwrite o k v) k = Some v.
Proof.
  unfold has_property. induction o as [| [k0 v0] o IH]; cbn; [discriminate |].
  destruct (String.eqb k0 k) eqn:E; cbn; rewrite E; [reflexivity | exact IH].
Qed.

Lemma get_overwrite_ne o k v k' :
  k' <> k -> get_property (overwrite o k v) k' = get_property o k'.
Proof.
  intros Hne. induction o as [| [k0 v0] o IH]; cbn; [reflexivity |].
  destruct (String.eqb k0 k) eqn:E; cbn.
  - apply String.eqb_eq in E. subst k0.
    apply not_eq_sym, String.eqb_neq in Hne. now rewrite Hne.
  - now rewrite IH.
Qed.

Lemma get_create_eq o k v :
  has_property o k = false -> get_property (create o k v) k = Some v.
Proof.
  unfold has_property. induction o as [| [k0 v0] o IH]; cbn.
  - now rewrite String.eqb_refl.
  - destruct (String.eqb k0 k) eqn:E; [discriminate |].
    intros H. destruct (key_before k0 k); cbn.
    + rewrite E. now apply IH.
    + now rewrite String.eqb_refl.
Qed.

Lemma get_create_ne o k v k' :
  k' <> k -> get_property (create o k v) k' = get_property o k'.
Proof.
  intros Hne. apply not_eq_sym, String.eqb_neq in Hne.
  induction o as [| [k0 v0] o IH]; cbn.
  - now rewrite Hne.
  - destruct (key_before k0 k); cbn.
    + now rewrite IH.
    + now rewrite Hne.
Qed.

Lemma get_set_eq o k v : get_property (set_property o k v) k = Some v.
Proof.
  unfold set_property. destruct (has_property o k) eqn:E.
  - now apply get_overwrite_eq.
  - now apply get_create_eq.
Qed.

Lemma get_set_ne o k v k' :
  k' <> k -> get_property (set_property o k v) k' = get_property o k'.
Proof.
  intros Hne. unfold set_property. destruct (has_property o k).
  - now apply get_overwrite_ne.
  - now apply get_create_ne.
Qed.
End ObjectFacts.

(** ** DynamicForm *)

(** C10.  Recording the answer [v] for field id [f] makes [v] the entry of
    [f] in the answer mapping and leaves the entry of every other field id,
    present or absent, as it was. *)
Theorem C10_handleChange_frame
    (formData : list (string * answer)) (f : string) (v : answer) :
  get_property (handleChange formData f v) f = Some v /\
  (forall g, g <> f ->
     get_property (handleChange formData f v) g = get_property formData g).
Proof.
  unfold handleChange. split.
  - apply get_set_eq.
  - intros g Hg. now apply get_set_ne.
Qed.

Lemma C10_witness :
  let formData := [("f1", Text "hello"); ("f2", Checked true)] in
  get_property (handleChange formData "f2" (Checked false)) "f1"
  = Some (Text "hello").
Proof.
  intros formData.
  rewrite (proj2 (C10_handleChange_frame formData "f2" (Checked false)) "f1")
    by discriminate.
  reflexivity.
Defined.

(** ** JSON values *)

Lemma json_induction (P : json -> Prop)
    (Hnull : P JNull) (Hbool : forall b, P (JBool b))
    (Hnum : forall l, P (JNum l)) (Hstr : forall s, P (JStr s))
    (Harr : forall vs, Forall P vs -> P (JArr vs))
    (Hobj : forall ms, Forall (fun m => P (snd m)) ms -> P (JObj ms)) :
  forall v, P v.
Proof.
  fix IH 1. intros [| b | l | s | vs | ms].
  - exact Hnull.
  - apply Hbool.
  - apply Hnum.
  - apply Hstr.
  - apply Harr. induction vs as [| v vs IHvs]; constructor.
    + apply IH.
    + exact IHvs.
  - apply Hobj. induction ms as [| m ms IHms]; constructor.
    + apply IH.
    + exact IHms.
Qed.

Lemma json_eqb_refl (v : json) : json_eqb v v = true.
Proof.
  induction v as [| b | l | s | vs IH | ms IH] using json_induction;
    cbn [json_eqb].
  - reflexivity.
  - now destruct b.
  - apply String.eqb_refl.
  - apply String.eqb_refl.
  - induction IH as [| v vs Hv _ IHvs]; [reflexivity |].
    now rewrite Hv, IHvs.
  - induction IH as [| m ms Hm _ IHms]; [reflexivity |].
    now rewrite String.eqb_refl, Hm, IHms.
Qed.

Lemma json_eqb_eq (a b : json) : json_eqb a b = true -> a = b.
Proof.
  revert b.
  induction a as [| x | x | x | xs IH | xs IH] using json_induction;
    intros [| y | y | y | ys | ys]; cbn [json_eqb]; try discriminate.
  - reflexivity.
  - intros H. apply Bool.eqb_prop in H. now subst.
  - intros H. apply String.eqb_eq in H. now subst.
  - intros H. apply String.eqb_eq in H. now subst.
  - intros H. f_equal. revert ys H.
    induction IH as [| x xs Hx _ IHxs]; intros [| y ys]; try discriminate.
    + reflexivity.
    + intros H. apply andb_true_iff in H as [H1 H2].
      f_equal; [now apply Hx | now apply IHxs].
  - intros H. f_equal. revert ys H.
    induction IH as [| [k x] xs Hx _ IHxs]; intros [| [k' y] ys];
      try discriminate.
    + reflexivity.
    + cbn [fst snd] in *. intros H.
      apply andb_true_iff in H as [H1 H3].
      apply andb_true_iff in H1 as [H1 H2].
      apply String.eqb_eq in H1. subst k'.
      f_equal; [f_equal; now apply Hx | now apply IHxs].
Qed.

(** ** String literals *)

Lemma parse_chars_step (c : ascii) (tail : list ascii) :
  parse_chars (escape_char c ++ tail)
  = p ← parse_chars tail; Ok (String c (fst p), snd p).
Proof.
  destruct c as [[] [] [] [] [] [] [] []]; reflexivity.
Qed.

Lemma parse_chars_escape (s : string) (rest : list ascii) :
  parse_chars (escape s (quote_mark :: rest)) = Ok (s, rest).
Proof.
  induction s as [| c s IH]; cbn [escape].
  - reflexivity.
  - rewrite parse_chars_step, IH. reflexivity.
Qed.

(** ** Objects in enumeration order *)

Section CanonicalObjects.
Context {V : Type}.
Implicit Types (o ms : list (string * V)) (k : string) (v : V).

Lemma canonical_keys_before (ks1 : list string) k (ks2 : list string) :
  canonical_keys (ks1 ++ k :: ks2) = true ->
  Forall (fun k' => String.eqb k' k = false /\ key_before k' k = true) ks1.
Proof.
  induction ks1 as [| k1 ks1 IH]; cbn [app canonical_keys]; intros H.
  - constructor.
  - apply andb_true_iff in H as [Hhead Htail]. constructor.
    + rewrite forallb_app in Hhead.
      apply andb_true_iff in Hhead as [_ Hk]. cbn [forallb] in Hk.
      apply andb_true_iff in Hk as [Hk _].
      apply andb_true_iff in Hk as [Hne Hbefore].
      split; [now apply negb_true_iff | assumption].
    + now apply IH.
Qed.

Lemma has_property_absent o k :
  Forall (fun m => String.eqb (fst m) k = false) o ->
  has_property o k = false.
Proof.
  unfold has_property.
  induction 1 as [| [k0 v0] o Hk _ IH]; cbn in *; [reflexivity |].
  now rewrite Hk.
Qed.

Lemma create_at_end o k v :
  Forall (fun m => key_before (fst m) k = true) o ->
  create o k v = o ++ [(k, v)].
Proof.
  induction 1 as [| [k0 v0] o Hk _ IH]; cbn in *; [reflexivity |].
  now rewrite Hk, IH.
Qed.

Lemma set_property_at_end o k v :
  canonical_keys (fst <$> (o ++ [(k, v)])) = true ->
  set_property o k v = o ++ [(k, v)].
Proof.
  intros H. rewrite fmap_app in H. cbn in H.
  apply canonical_keys_before in H.
  unfold set_property. rewrite has_property_absent.
  - apply create_at_end. apply Forall_fmap in H.
    eapply Forall_impl; [exact H |]. cbn. tauto.
  - apply Forall_fmap in H.
    eapply Forall_impl; [exact H |]. cbn. tauto.
Qed.

Lemma canonical_keys_prefix (ks1 ks2 : list string) :
  canonical_keys (ks1 ++ ks2) = true -> canonical_keys ks1 = true.
Proof.
  induction ks1 as [| k ks1 IH]; cbn [app canonical_keys]; [reflexivity |].
  intros H. apply andb_true_iff in H as [Hhead Htail].
  rewrite forallb_app in Hhead. apply andb_true_iff in Hhead as [Hhead _].
  rewrite Hhead. cbn. now apply IH.
Qed.

Lemma build_from o ms :
  canonical_keys (fst <$> (o ++ ms)) = true ->
  fold_left (fun o m => set_property o (fst m) (snd m)) ms o = o ++ ms.
Proof.
  revert o. induction ms as [| [k v] ms IH]; intros o H; cbn [fold_left].
  - now rewrite app_nil_r.
  - cbn [fst snd].
    replace (o ++ (k, v) :: ms) with ((o ++ [(k, v)]) ++ ms) in *
      by now rewrite <- app_assoc.
    rewrite set_property_at_end.
    + now apply IH.
    + rewrite fmap_app in H. now apply canonical_keys_prefix in H.
Qed.

Lemma build_object_canonical ms :
  canonical_keys (fst <$> ms) = true -> build_object ms = ms.
Proof. intros H. unfold build_object. now rewrite build_from. Qed.
End CanonicalObjects.

(** ** JSON.parse after JSON.stringify *)

(** Unfolding of the parser at the first character of a value. *)

Lemma parse_value_array (f : nat) (r : list ascii) :
  parse_value (S f) ("["%char :: r)
  = match skip_ws r with
    | [] => Throw SyntaxError
    | c' :: r' =>
        if Ascii.eqb c' "]"%char then Ok (JArr [], r')
        else p ← parse_elements f (c' :: r'); Ok (JArr (fst p), snd p)
    end.
Proof. reflexivity. Qed.

Lemma parse_value_string (f : nat) (r : list ascii) :
  parse_value (S f) (quote_mark :: r)
  = p ← parse_chars r; Ok (JStr (fst p), snd p).
Proof. reflexivity. Qed.

Lemma parse_elements_S (f : nat) (s : list ascii) :
  parse_elements (S f) s
  = p ← parse_value f s;
    match skip_ws (snd p) with
    | [] => Throw SyntaxError
    | c :: r =>
        if Ascii.eqb c ","%char then
          q ← parse_elements f r; Ok (fst p :: fst q, snd q)
        else if Ascii.eqb c "]"%char then Ok ([fst p], r)
        else Throw SyntaxError
    end.
Proof. reflexivity. Qed.

Lemma parse_members_S (f : nat) (r : list ascii) :
  parse_members (S f) (quote_mark :: r)
  = k ← parse_chars r;
    match skip_ws (snd k) with
    | [] => Throw SyntaxError
    | c1 :: r1 =>
        if negb (Ascii.eqb c1 ":"%char) then Throw SyntaxError
        else
          p ← parse_value f r1;
          match skip_ws (snd p) with
          | [] => Throw SyntaxError
          | c2 :: r2 =>
              if Ascii.eqb c2 ","%char then
                q ← parse_members f r2;
                Ok ((fst k, fst p) :: fst q, snd q)
              else if Ascii.eqb c2 "}"%char
              then Ok ([(fst k, fst p)], r2)
              else Throw SyntaxError
          end
    end.
Proof. reflexivity. Qed.

(** The text of a canonical value starts with a character that is neither
    white space nor a closing bracket. *)
Lemma emit_head (v : json) (rest : list ascii) :
  canonical v = true ->
  exists c tail,
    emit v rest = c :: tail /\ is_ws c = false /\
    Ascii.eqb c "]"%char = false.
Proof.
  destruct v as [| [] | l | s | vs | ms]; cbn [canonical]; intros H;
    try discriminate; eexists; eexists;
    (split; [reflexivity | split; reflexivity]).
Qed.

Lemma parse_elements_roundtrip (vs : list json) :
  Forall parses_back vs ->
  forall v0 fuel rest,
    parses_back v0 ->
    S (json_size v0) + list_sum ((fun v => S (json_size v)) <$> vs)
    <= fuel ->
    parse_elements fuel (emit v0 (emit_elements emit rest vs))
    = Ok (v0 :: vs, rest).
Proof.
  induction 1 as [| v1 vs H1 _ IH]; intros v0 fuel rest H0 Hfuel;
    (destruct fuel as [| f]; [lia |]); rewrite parse_elements_S;
    cbn [fmap list_fmap] in Hfuel;
    try change (list_sum (?a :: ?l)) with (a + list_sum l) in Hfuel.
  - rewrite H0 by lia. reflexivity.
  - rewrite H0 by lia. cbn [mbind outcome_bind snd fst emit_elements].
    change (skip_ws (","%char :: ?t)) with (","%char :: t).
    cbn [Ascii.eqb Bool.eqb].
    fold (emit_elements emit rest vs).
    rewrite IH by (assumption || lia). reflexivity.
Qed.

Lemma parse_members_roundtrip (ms : list (string * json)) :
  Forall (fun m => parses_back (snd m)) ms ->
  forall k0 v0 fuel rest,
    parses_back v0 ->
    S (json_size v0) + list_sum ((fun m => S (json_size (snd m))) <$> ms)
    <= fuel ->
    parse_members fuel
      (quote k0 (":"%char :: emit v0 (emit_members emit rest ms)))
    = Ok ((k0, v0) :: ms, rest).
Proof.
  induction 1 as [| [k1 v1] ms H1 _ IH]; intros k0 v0 fuel rest H0 Hfuel;
    (destruct fuel as [| f]; [lia |]); unfold quote at 1;
    rewrite parse_members_S, parse_chars_escape;
    cbn [fmap list_fmap snd] in Hfuel;
    try change (list_sum (?a :: ?l)) with (a + list_sum l) in Hfuel;
    cbn [mbind outcome_bind snd fst];
    change (skip_ws (":"%char :: ?t)) with (":"%char :: t);
    cbn [Ascii.eqb Bool.eqb negb].
  - rewrite H0 by lia. reflexivity.
  - rewrite H0 by lia. cbn [mbind outcome_bind snd fst emit_members].
    change (skip_ws (","%char :: ?t)) with (","%char :: t).
    cbn [Ascii.eqb Bool.eqb].
    fold (emit_members emit rest ms).
    rewrite IH by (assumption || lia). reflexivity.
Qed.

Lemma parse_value_object_quote (f : nat) (k : string) (t : list ascii) :
  parse_value (S f) ("{"%char :: quote k t)
  = p ← parse_members f (quote k t);
    Ok (JObj (build_object (fst p)), snd p).
Proof. reflexivity. Qed.

Lemma Forall_canonical (P : json -> Prop) (vs : list json) :
  Forall (fun v => canonical v = true -> P v) vs ->
  forallb canonical vs = true ->
  Forall P vs.
Proof.
  induction 1 as [| v vs Hv _ IH]; cbn [forallb]; intros Hc; constructor;
    apply andb_true_iff in Hc as [Hc1 Hc2]; auto.
Qed.

Lemma Forall_canonical_members (P : json -> Prop)
    (ms : list (string * json)) :
  Forall (fun m => canonical (snd m) = true -> P (snd m)) ms ->
  forallb (fun m => canonical (snd m)) ms = true ->
  Forall (fun m => P (snd m)) ms.
Proof.
  induction 1 as [| m ms Hm _ IH]; cbn [forallb]; intros Hc; constructor;
    apply andb_true_iff in Hc as [Hc1 Hc2]; auto.
Qed.

(** The parser inverts [emit] on canonical values, given fuel for the
    nesting of the value. *)
Lemma parse_value_roundtrip (v : json) :
  canonical v = true -> parses_back v.
Proof.
  induction v as [| b | l | s | vs IH | ms IH] using json_induction;
    cbn [canonical]; intros Hc fuel rest Hfuel;
    (destruct fuel as [| f]; [cbn in Hfuel; lia |]).
  - reflexivity.
  - destruct b; reflexivity.
  - discriminate.
  - cbn [emit]. unfold quote.
    rewrite parse_value_string, parse_chars_escape. reflexivity.
  - destruct vs as [| v0 vs']; [reflexivity |].
    cbn [forallb] in Hc. apply andb_true_iff in Hc as [Hc0 Hcs].
    apply Forall_cons in IH as [IH0 IHs].
    cbn [emit]. rewrite parse_value_array.
    destruct (emit_head v0 (emit_elements emit rest vs') Hc0)
      as (c & tail & Heq & Hws & Hclose).
    rewrite Heq. cbn [skip_ws]. rewrite Hws, Hclose. rewrite <- Heq.
    cbn [json_size fmap list_fmap] in Hfuel.
    change (list_sum (?a :: ?l)) with (a + list_sum l) in Hfuel.
    rewrite parse_elements_roundtrip.
    + reflexivity.
    + now apply Forall_canonical.
    + now apply IH0.
    + cbn [fmap]. lia.
  - destruct ms as [| [k0 v0] ms']; [reflexivity |].
    apply andb_true_iff in Hc as [Hkeys Hc].
    cbn [forallb snd] in Hc. apply andb_true_iff in Hc as [Hc0 Hcs].
    apply Forall_cons in IH as [IH0 IHs]. cbn [snd] in IH0.
    cbn [emit fst snd]. rewrite parse_value_object_quote.
    cbn [json_size fmap list_fmap snd] in Hfuel.
    change (list_sum (?a :: ?l)) with (a + list_sum l) in Hfuel.
    rewrite parse_members_roundtrip.
    + cbn [mbind outcome_bind fst snd].
      now rewrite build_object_canonical.
    + now apply Forall_canonical_members.
    + now apply IH0.
    + cbn [fmap]. lia.
Qed.

(** The text of a value is at least as long as its size. *)

Lemma escape_length (s : string) (t : list ascii) :
  length t <= length (escape s t).
Proof.
  induction s as [| c s IH]; cbn [escape]; [lia |].
  rewrite length_app. lia.
Qed.

Lemma quote_length (s : string) (t : list ascii) :
  length t + 2 <= length (quote s t).
Proof.
  unfold quote. cbn [length].
  pose proof (escape_length s (quote_mark :: t)) as H. cbn [length] in H. lia.
Qed.

Lemma emit_elements_length (vs : list json) (rest : list ascii) :
  Forall long_enough vs ->
  list_sum ((fun v => S (json_size v)) <$> vs) + 1 + length rest
  <= length (emit_elements emit rest vs).
Proof.
  induction 1 as [| v vs Hv _ IH]; cbn [emit_elements fmap list_fmap length].
  - cbn. lia.
  - change (list_sum (?a :: ?l)) with (a + list_sum l).
    fold (emit_elements emit rest vs).
    specialize (Hv (emit_elements emit rest vs)). cbn [fmap] in IH. lia.
Qed.

Lemma emit_members_length (ms : list (string * json)) (rest : list ascii) :
  Forall (fun m => long_enough (snd m)) ms ->
  list_sum ((fun m => S (json_size (snd m))) <$> ms) + 1 + length rest
  <= length (emit_members emit rest ms).
Proof.
  induction 1 as [| m ms Hm _ IH]; cbn [emit_members fmap list_fmap length].
  - cbn. lia.
  - change (list_sum (?a :: ?l)) with (a + list_sum l).
    fold (emit_members emit rest ms).
    specialize (Hm (emit_members emit rest ms)).
    pose proof (quote_length (fst m)
      (":"%char :: emit (snd m) (emit_members emit rest ms))) as Hq.
    cbn [length] in Hq. cbn [fmap] in IH. lia.
Qed.

Lemma emit_length (v : json) : canonical v = true -> long_enough v.
Proof.
  induction v as [| b | l | s | vs IH | ms IH] using json_induction;
    cbn [canonical]; intros Hc rest.
  - cbn. lia.
  - destruct b; cbn; lia.
  - discriminate.
  - cbn [emit json_size]. pose proof (quote_length s rest). lia.
  - destruct vs as [| v0 vs']; [cbn; lia |].
    cbn [forallb] in Hc. apply andb_true_iff in Hc as [Hc0 Hcs].
    apply Forall_cons in IH as [IH0 IHs].
    cbn [emit json_size fmap list_fmap length].
    change (list_sum (?a :: ?l)) with (a + list_sum l).
    pose proof (IH0 Hc0 (emit_elements emit rest vs')) as H0.
    pose proof (emit_elements_length vs' rest
                  (Forall_canonical _ _ IHs Hcs)) as Hs.
    cbn [fmap] in Hs. lia.
  - destruct ms as [| [k0 v0] ms']; [cbn; lia |].
    apply andb_true_iff in Hc as [Hkeys Hc].
    cbn [forallb snd] in Hc. apply andb_true_iff in Hc as [Hc0 Hcs].
    apply Forall_cons in IH as [IH0 IHs]. cbn [snd] in IH0.
    cbn [emit json_size fmap list_fmap length fst snd].
    change (list_sum (?a :: ?l)) with (a + list_sum l).
    pose proof (IH0 Hc0 (emit_members emit rest ms')) as H0.
    pose proof (emit_members_length ms' rest
                  (Forall_canonical_members _ _ IHs Hcs)) as Hs.
    pose proof (quote_length k0
      (":"%char :: emit v0 (emit_members emit rest ms'))) as Hq.
    cbn [length] in Hq. cbn [fmap] in Hs. lia.
Qed.

(** JSON.parse(JSON.stringify(v)) is [v], for canonical [v]. *)
Lemma JSON_roundtrip (v : json) :
  canonical v = true -> JSON_parse (JSON_stringify v) = Ok v.
Proof.
  intros Hc. unfold JSON_parse, JSON_stringify, chars.
  rewrite list_ascii_of_string_of_list_ascii.
  rewrite (parse_value_roundtrip v Hc).
  - reflexivity.
  - pose proof (emit_length v Hc []) as H. cbn [length] in H. lia.
Qed.

(** ** The parser never stops for lack of fuel *)

Lemma skip_ws_length (s : list ascii) : length (skip_ws s) <= length s.
Proof.
  induction s as [| c s IH]; cbn [skip_ws]; [lia |].
  destruct (is_ws c); cbn [length]; lia.
Qed.

Lemma strip_prefix_length (p s r : list ascii) :
  strip_prefix p s = Some r -> length r <= length s.
Proof.
  revert s. induction p as [| a p IH]; intros s; cbn [strip_prefix].
  - intros [= ->]. lia.
  - destruct s as [| b s]; [discriminate |].
    destruct (Ascii.eqb a b); [| discriminate].
    intros H. apply IH in H. cbn [length]. lia.
Qed.

Lemma keyword_length (word : string) (v w : json) (s r : list ascii) :
  keyword word v s = Ok (w, r) -> length r <= length s.
Proof.
  unfold keyword. destruct (strip_prefix (chars word) s) eqn:E; [| discriminate].
  intros [= _ <-]. eapply strip_prefix_length; eauto.
Qed.

Lemma span_digits_length (s : list ascii) :
  length (snd (span_digits s)) <= length s.
Proof.
  induction s as [| c s IH]; cbn [span_digits]; [cbn; lia |].
  destruct (is_digit c); cbn [snd length]; lia.
Qed.

Lemma parse_chars_length_le (n : nat) :
  forall s str r,
    length s <= n -> parse_chars s = Ok (str, r) -> length r < length s.
Proof.
  induction n as [| n IH]; intros s str r Hn;
    (destruct s as [| c s]; [discriminate |]); cbn [length] in Hn; [lia |].
  cbn [parse_chars].
  destruct (Ascii.eqb c quote_mark).
  { intros [= _ <-]. cbn [length]. lia. }
  destruct (Ascii.eqb c backslash).
  - destruct s as [| e r1]; [discriminate |].
    destruct (Ascii.eqb e "u"%char).
    + destruct r1 as [| h1 [| h2 [| h3 [| h4 r2]]]]; try discriminate.
      destruct (hex4 h1 h2 h3 h4) as [code |]; [| discriminate].
      destruct (code <? 256); [| discriminate].
      destruct (parse_chars r2) as [[str' r'] | |] eqn:E;
        cbn [mbind outcome_bind fst snd]; try discriminate.
      intros [= _ <-]. apply IH in E; cbn [length] in *; lia.
    + destruct (unescape e); [| discriminate].
      destruct (parse_chars r1) as [[str' r'] | |] eqn:E;
        cbn [mbind outcome_bind fst snd]; try discriminate.
      intros [= _ <-]. apply IH in E; cbn [length] in *; lia.
  - destruct (nat_of_ascii c <? 32); [discriminate |].
    destruct (parse_chars s) as [[str' r'] | |] eqn:E;
      cbn [mbind outcome_bind fst snd]; try discriminate.
    intros [= _ <-]. apply IH in E; cbn [length] in *; lia.
Qed.

Lemma parse_chars_length (s : list ascii) (str : string) (r : list ascii) :
  parse_chars s = Ok (str, r) -> length r < length s.
Proof. now apply (parse_chars_length_le (length s)). Qed.

Lemma optional_length (p : ascii -> bool) (s : list ascii) :
  length (snd (optional p s)) <= length s.
Proof.
  destruct s as [| c r]; cbn [optional]; [cbn; lia |].
  destruct (p c); cbn [snd length]; lia.
Qed.

Lemma digits1_length (s : list ascii) (p : list ascii * list ascii) :
  digits1 s = Ok p -> length (snd p) <= length s.
Proof.
  unfold digits1. pose proof (span_digits_length s) as H.
  destruct (fst (span_digits s)); [discriminate |]. now intros [= <-].
Qed.

Lemma number_int_length (s : list ascii) (p : list ascii * list ascii) :
  number_int s = Ok p -> length (snd p) < length s.
Proof.
  destruct s as [| d r]; cbn [number_int]; [discriminate |].
  destruct (Ascii.eqb d "0"%char).
  - intros [= <-]. cbn [snd length]. lia.
  - destruct (is_digit d); [| discriminate]. intros [= <-].
    pose proof (span_digits_length r). cbn [snd length]. lia.
Qed.

Lemma number_frac_length (s : list ascii) (p : list ascii * list ascii) :
  number_frac s = Ok p -> length (snd p) <= length s.
Proof.
  destruct s as [| c r]; cbn [number_frac]; [now intros [= <-] |].
  destruct (Ascii.eqb c "."%char); [| now intros [= <-]].
  destruct (digits1 r) as [q | |] eqn:E; cbn [mbind outcome_bind];
    try discriminate.
  intros [= <-]. apply digits1_length in E. cbn [snd length]. lia.
Qed.

Lemma number_exp_length (s : list ascii) (p : list ascii * list ascii) :
  number_exp s = Ok p -> length (snd p) <= length s.
Proof.
  destruct s as [| c r]; cbn [number_exp]; [now intros [= <-] |].
  destruct (Ascii.eqb c "e"%char || Ascii.eqb c "E"%char);
    [| now intros [= <-]].
  match goal with
  | |- context [digits1 (snd ?o)] =>
      pose proof (optional_length
        (fun x => Ascii.eqb x "+"%char || Ascii.eqb x "-"%char) r) as Ho;
      destruct (digits1 (snd o)) as [q | |] eqn:E
  end; cbn [mbind outcome_bind]; try discriminate.
  intros [= <-]. apply digits1_length in E. cbn [snd length]. lia.
Qed.

Lemma parse_number_length (s : list ascii) (lit : string) (r : list ascii) :
  parse_number s = Ok (lit, r) -> length r < length s.
Proof.
  unfold parse_number.
  pose proof (optional_length (fun x => Ascii.eqb x "-"%char) s) as Hs.
  destruct (number_int _) as [i | |] eqn:Ei; cbn [mbind outcome_bind];
    try discriminate.
  destruct (number_frac _) as [f | |] eqn:Ef; cbn [mbind outcome_bind];
    try discriminate.
  destruct (number_exp _) as [e | |] eqn:Ee; cbn [mbind outcome_bind];
    try discriminate.
  intros [= _ <-].
  apply number_int_length in Ei. apply number_frac_length in Ef.
  apply number_exp_length in Ee. lia.
Qed.

(** What the parser leaves is never longer than what it was given. *)
Lemma parse_length (fuel : nat) :
  (forall s v r, parse_value fuel s = Ok (v, r) -> length r < length s) /\
  (forall s vs r, parse_elements fuel s = Ok (vs, r) -> length r < length s) /\
  (forall s ms r, parse_members fuel s = Ok (ms, r) -> length r < length s).
Proof.
  induction fuel as [| f (IHv & IHe & IHm)];
    [repeat split; intros; discriminate |].
  split; [| split].
  - intros s v r. cbn [parse_value].
    pose proof (skip_ws_length s) as Hs.
    destruct (skip_ws s) as [| c t]; [discriminate |]. cbn [length] in Hs.
    destruct (Ascii.eqb c "{"%char).
    { pose proof (skip_ws_length t) as Ht.
      destruct (skip_ws t) as [| c' t']; [discriminate |]. cbn [length] in Ht.
      destruct (Ascii.eqb c' "}"%char); [intros [= _ <-]; lia |].
      destruct (parse_members f (c' :: t')) as [[ms r'] | |] eqn:E;
        cbn [mbind outcome_bind fst snd]; try discriminate.
      intros [= _ <-]. apply IHm in E. cbn [length] in E. lia. }
    destruct (Ascii.eqb c "["%char).
    { pose proof (skip_ws_length t) as Ht.
      destruct (skip_ws t) as [| c' t']; [discriminate |]. cbn [length] in Ht.
      destruct (Ascii.eqb c' "]"%char); [intros [= _ <-]; lia |].
      destruct (parse_elements f (c' :: t')) as [[vs r'] | |] eqn:E;
        cbn [mbind outcome_bind fst snd]; try discriminate.
      intros [= _ <-]. apply IHe in E. cbn [length] in E. lia. }
    destruct (Ascii.eqb c quote_mark).
    { destruct (parse_chars t) as [[str r'] | |] eqn:E;
        cbn [mbind outcome_bind fst snd]; try discriminate.
      intros [= _ <-]. apply parse_chars_length in E. lia. }
    destruct (Ascii.eqb c "n"%char);
      [intros H; apply keyword_length in H; lia |].
    destruct (Ascii.eqb c "t"%char);
      [intros H; apply keyword_length in H; lia |].
    destruct (Ascii.eqb c "f"%char);
      [intros H; apply keyword_length in H; lia |].
    destruct (parse_number (c :: t)) as [[lit r'] | |] eqn:E;
      cbn [mbind outcome_bind fst snd]; try discriminate.
    destruct (safe_integer lit); [| discriminate].
    intros [= _ <-]. apply parse_number_length in E. cbn [length] in E. lia.
  - intros s vs r. cbn [parse_elements].
    destruct (parse_value f s) as [[v r1] | |] eqn:E;
      cbn [mbind outcome_bind fst snd]; try discriminate.
    apply IHv in E. pose proof (skip_ws_length r1) as H1.
    destruct (skip_ws r1) as [| c t]; [discriminate |]. cbn [length] in H1.
    destruct (Ascii.eqb c ","%char).
    { destruct (parse_elements f t) as [[vs' r'] | |] eqn:E';
        cbn [mbind outcome_bind fst snd]; try discriminate.
      intros [= _ <-]. apply IHe in E'. lia. }
    destruct (Ascii.eqb c "]"%char); [| discriminate].
    intros [= _ <-]. lia.
  - intros s ms r. cbn [parse_members].
    pose proof (skip_ws_length s) as Hs.
    destruct (skip_ws s) as [| c t]; [discriminate |]. cbn [length] in Hs.
    destruct (negb (Ascii.eqb c quote_mark)); [discriminate |].
    destruct (parse_chars t) as [[k r0] | |] eqn:Ek;
      cbn [mbind outcome_bind fst snd]; try discriminate.
    apply parse_chars_length in Ek. pose proof (skip_ws_length r0) as H0.
    destruct (skip_ws r0) as [| c1 t1]; [discriminate |]. cbn [length] in H0.
    destruct (negb (Ascii.eqb c1 ":"%char)); [discriminate |].
    destruct (parse_value f t1) as [[v r1] | |] eqn:E;
      cbn [mbind outcome_bind fst snd]; try discriminate.
    apply IHv in E. pose proof (skip_ws_length r1) as H1.
    destruct (skip_ws r1) as [| c2 t2]; [discriminate |]. cbn [length] in H1.
    destruct (Ascii.eqb c2 ","%char).
    { destruct (parse_members f t2) as [[ms' r'] | |] eqn:E';
        cbn [mbind outcome_bind fst snd]; try discriminate.
      intros [= _ <-]. apply IHm in E'. lia. }
    destruct (Ascii.eqb c2 "}"%char); [| discriminate].
    intros [= _ <-]. lia.
Qed.

(** Beyond twice the length of the text, more fuel changes nothing: the
    parser never stops for lack of fuel. *)
Lemma parse_fuel (f1 : nat) :
  forall f2,
    (forall s, 2 * length s + 1 <= f1 -> 2 * length s + 1 <= f2 ->
               parse_value f1 s = parse_value f2 s) /\
    (forall s, 2 * length s + 2 <= f1 -> 2 * length s + 2 <= f2 ->
               parse_elements f1 s = parse_elements f2 s) /\
    (forall s, 2 * length s + 2 <= f1 -> 2 * length s + 2 <= f2 ->
               parse_members f1 s = parse_members f2 s).
Proof.
  induction f1 as [| f1 IH]; intros f2;
    [repeat split; intros; lia |].
  destruct f2 as [| f2]; [repeat split; intros; lia |].
  destruct (IH f2) as (IHv & IHe & IHm).
  split; [| split]; intros s H1 H2.
  - cbn [parse_value].
    pose proof (skip_ws_length s) as Hs.
    destruct (skip_ws s) as [| c t]; [reflexivity |]. cbn [length] in Hs.
    pose proof (skip_ws_length t) as Ht.
    destruct (skip_ws t) as [| c' t'].
    + destruct (Ascii.eqb c "{"%char); [reflexivity |].
      destruct (Ascii.eqb c "["%char); reflexivity.
    + cbn [length] in Ht.
      rewrite (IHm (c' :: t')) by (cbn [length]; lia).
      rewrite (IHe (c' :: t')) by (cbn [length]; lia).
      reflexivity.
  - cbn [parse_elements]. rewrite (IHv s) by lia.
    destruct (parse_value f2 s) as [[v r1] | |] eqn:E;
      cbn [mbind outcome_bind fst snd]; try reflexivity.
    apply parse_length in E. pose proof (skip_ws_length r1) as Hr.
    destruct (skip_ws r1) as [| c t]; [reflexivity |]. cbn [length] in Hr.
    rewrite (IHe t) by lia. reflexivity.
  - cbn [parse_members].
    pose proof (skip_ws_length s) as Hs.
    destruct (skip_ws s) as [| c t]; [reflexivity |]. cbn [length] in Hs.
    destruct (negb (Ascii.eqb c quote_mark)); [reflexivity |].
    destruct (parse_chars t) as [[k r0] | |] eqn:Ek;
      cbn [mbind outcome_bind fst snd]; try reflexivity.
    apply parse_chars_length in Ek. pose proof (skip_ws_length r0) as H0.
    destruct (skip_ws r0) as [| c1 t1]; [reflexivity |]. cbn [length] in H0.
    destruct (negb (Ascii.eqb c1 ":"%char)); [reflexivity |].
    rewrite (IHv t1) by lia.
    destruct (parse_value f2 t1) as [[v r1] | |] eqn:E;
      cbn [mbind outcome_bind fst snd]; try reflexivity.
    apply parse_length in E. pose proof (skip_ws_length r1) as Hr.
    destruct (skip_ws r1) as [| c2 t2]; [reflexivity |]. cbn [length] in Hr.
    rewrite (IHm t2) by lia. reflexivity.
Qed.

(** JSON.parse is the parser run with any fuel above its own. *)
Lemma JSON_parse_fuel (text : string) (fuel : nat) :
  2 * length (chars text) + 2 <= fuel ->
  JSON_parse text
  = p ← parse_value fuel (chars text);
    match skip_ws (snd p) with
    | [] => Ok (fst p)
    | _ :: _ => Throw SyntaxError
    end.
Proof.
  intros H. unfold JSON_parse.
  now rewrite (proj1 (parse_fuel _ fuel) (chars text)) by lia.
Qed.

(** ** The data model in JSON *)

Lemma canonical_strings (os : list string) :
  forallb canonical (JStr <$> os) = true.
Proof. induction os as [| o os IH]; [reflexivity | exact IH]. Qed.

Lemma canonical_field (f : Field.t) : canonical (field_to_json f) = true.
Proof.
  destruct f as [id type label [os |]]; [| reflexivity].
  unfold field_to_json. cbn [Field.options Field.id Field.type Field.label app].
  cbn [canonical]. apply andb_true_iff. split; [reflexivity |].
  cbn [forallb snd canonical]. now rewrite canonical_strings.
Qed.

Lemma canonical_fmap {A : Type} (enc : A -> json) (l : list A) :
  (forall x, canonical (enc x) = true) ->
  forallb canonical (enc <$> l) = true.
Proof.
  intros H. induction l as [| x l IH]; [reflexivity |].
  cbn [fmap list_fmap forallb]. rewrite H. exact IH.
Qed.

Lemma canonical_section (s : Sect.t) : canonical (section_to_json s) = true.
Proof.
  unfold section_to_json. cbn [canonical].
  apply andb_true_iff. split; [reflexivity |].
  cbn [forallb snd canonical].
  now rewrite (canonical_fmap field_to_json _ canonical_field).
Qed.

Lemma canonical_template (t : Template.t) :
  canonical (template_to_json t) = true.
Proof.
  unfold template_to_json. cbn [canonical].
  apply andb_true_iff. split; [reflexivity |].
  cbn [forallb snd canonical].
  now rewrite (canonical_fmap section_to_json _ canonical_section).
Qed.

Lemma canonical_templates (ts : list Template.t) :
  canonical (templates_to_json ts) = true.
Proof. apply (canonical_fmap template_to_json _ canonical_template). Qed.

Lemma json_to_field_to_json (f : Field.t) :
  json_to_field (field_to_json f) = Some f.
Proof.
  destruct f as [id type label [os |]]; [| reflexivity].
  unfold json_to_field, field_to_json.
  cbn [Field.options Field.id Field.type Field.label app as_object
       mbind option_bind].
  change (get_property _ "id") with (Some (JStr id)).
  change (get_property _ "type") with (Some (JStr type)).
  change (get_property _ "label") with (Some (JStr label)).
  change (get_property _ "options") with (Some (JArr (JStr <$> os))).
  cbn [mbind option_bind as_string as_array].
  rewrite (mapM_fmap_Some as_string JStr os) by reflexivity.
  reflexivity.
Qed.

Lemma json_to_section_to_json (s : Sect.t) :
  json_to_section (section_to_json s) = Some s.
Proof.
  destruct s as [id title fields].
  unfold json_to_section, section_to_json.
  cbn [Sect.id Sect.title Sect.fields as_object mbind option_bind].
  change (get_property _ "id") with (Some (JStr id)).
  change (get_property _ "title") with (Some (JStr title)).
  change (get_property _ "fields")
    with (Some (JArr (field_to_json <$> fields))).
  cbn [mbind option_bind as_string as_array].
  rewrite (mapM_fmap_Some json_to_field field_to_json fields)
    by apply json_to_field_to_json.
  reflexivity.
Qed.

Lemma json_to_template_to_json (t : Template.t) :
  json_to_template (template_to_json t) = Some t.
Proof.
  destruct t as [id name sections].
  unfold json_to_template, template_to_json.
  cbn [Template.id Template.name Template.sections as_object
       mbind option_bind].
  change (get_property _ "id") with (Some (JStr id)).
  change (get_property _ "name") with (Some (JStr name)).
  change (get_property _ "sections")
    with (Some (JArr (section_to_json <$> sections))).
  cbn [mbind option_bind as_string as_array].
  rewrite (mapM_fmap_Some json_to_section section_to_json sections)
    by apply json_to_section_to_json.
  reflexivity.
Qed.

Lemma json_to_templates_to_json (ts : list Template.t) :
  json_to_templates (templates_to_json ts) = Some ts.
Proof.
  unfold json_to_templates, templates_to_json.
  cbn [as_array mbind option_bind].
  apply mapM_fmap_Some, json_to_template_to_json.
Qed.

Lemma exactly_templates_to_json (ts : list Template.t) :
  exactly_templates (templates_to_json ts) = Some ts.
Proof.
  unfold exactly_templates. rewrite json_to_templates_to_json.
  cbn [mbind option_bind]. now rewrite json_eqb_refl.
Qed.

Lemma exactly_templates_inv (v : json) (ts : list Template.t) :
  exactly_templates v = Some ts -> v = templates_to_json ts.
Proof.
  unfold exactly_templates.
  destruct (json_to_templates v) as [ts' |]; cbn [mbind option_bind];
    [| discriminate].
  destruct (json_eqb (templates_to_json ts') v) eqn:E; [| discriminate].
  intros [= <-]. symmetry. now apply json_eqb_eq.
Qed.

Lemma stringify_truthy (vs : list json) :
  truthy (JSON_stringify (JArr vs)) = true.
Proof. reflexivity. Qed.

(** ** Answer mappings stay in enumeration order *)

Lemma key_before_total (h k : string) :
  key_before h k = false -> key_before k h = true.
Proof.
  unfold key_before.
  destruct (array_index h) as [a |], (array_index k) as [b |];
    try discriminate; try reflexivity.
  intros H. apply N.leb_gt in H. apply N.leb_le. lia.
Qed.

Lemma key_before_after (h k k' : string) :
  key_before h k = false -> key_before h k' = true -> key_before k k' = true.
Proof.
  unfold key_before.
  destruct (array_index h) as [a |], (array_index k) as [b |],
    (array_index k') as [c |]; try discriminate; try reflexivity.
  intros H1 H2. apply N.leb_gt in H1. apply N.leb_le in H2.
  apply N.leb_le. lia.
Qed.

Section EnumerationOrder.
Context {V : Type}.
Implicit Types (o : list (string * V)) (k : string) (v : V).

Lemma overwrite_keys o k v : fst <$> overwrite o k v = fst <$> o.
Proof.
  induction o as [| [k0 v0] o IH]; cbn; [reflexivity |].
  destruct (String.eqb k0 k); cbn; [reflexivity | now rewrite IH].
Qed.

Lemma create_forallb (P : string -> bool) o k v :
  forallb P (fst <$> create o k v) = P k && forallb P (fst <$> o).
Proof.
  induction o as [| [k0 v0] o IH]; cbn; [reflexivity |].
  destruct (key_before k0 k); cbn; [| reflexivity].
  rewrite IH. destruct (P k0), (P k); reflexivity.
Qed.

Lemma absent_forallb o k :
  has_property o k = false ->
  forallb (fun k' => negb (String.eqb k k')) (fst <$> o) = true.
Proof.
  unfold has_property. induction o as [| [k0 v0] o IH]; cbn; [reflexivity |].
  destruct (String.eqb k0 k) eqn:E; [discriminate |].
  intros H. rewrite String.eqb_sym, E. cbn. now apply IH.
Qed.

Lemma create_canonical o k v :
  canonical_keys (fst <$> o) = true ->
  has_property o k = false ->
  canonical_keys (fst <$> create o k v) = true.
Proof.
  induction o as [| [k0 v0] o IH]; [reflexivity |].
  intros Hc Habs. pose proof (absent_forallb _ _ Habs) as Hne.
  cbn in Hc, Hne |- *.
  apply andb_true_iff in Hc as [Hhead Htail].
  apply andb_true_iff in Hne as [Hne0 Hne].
  unfold has_property in Habs. cbn in Habs.
  destruct (String.eqb k0 k) eqn:E; [discriminate |].
  destruct (key_before k0 k) eqn:Hb; cbn.
  - rewrite create_forallb, E, Hb, Hhead. cbn.
    apply IH; [assumption |]. unfold has_property.
    destruct (get_property o k); [discriminate | reflexivity].
  - rewrite Hne0, (key_before_total _ _ Hb), Hhead, Htail. cbn.
    rewrite !andb_true_r.
    apply forallb_forall. intros k' Hin.
    rewrite forallb_forall in Hne, Hhead.
    specialize (Hne _ Hin). specialize (Hhead _ Hin).
    apply andb_true_iff in Hhead as [_ Hhead].
    now rewrite Hne, (key_before_after _ _ _ Hb Hhead).
Qed.

Lemma set_property_canonical o k v :
  canonical_keys (fst <$> o) = true ->
  canonical_keys (fst <$> set_property o k v) = true.
Proof.
  intros Hc. unfold set_property. destruct (has_property o k) eqn:E.
  - now rewrite overwrite_keys.
  - now apply create_canonical.
Qed.
End EnumerationOrder.

(** Whatever the controls of the form record, starting from [{}], the
    answer mapping has its keys in enumeration order. *)
Lemma handleChange_canonical
    (changes : list (string * answer)) :
  canonical_keys
    (fst <$> fold_left (fun fd c => handleChange fd (fst c) (snd c))
                       changes [])
  = true.
Proof.
  assert (H : forall fd : list (string * answer),
             canonical_keys (fst <$> fd) = true ->
             canonical_keys
               (fst <$> fold_left
                          (fun fd c => handleChange fd (fst c) (snd c))
                          changes fd) = true).
  { induction changes as [| [f v] changes IH]; intros fd Hfd; cbn [fold_left].
    - exact Hfd.
    - apply IH. now apply set_property_canonical. }
  now apply H.
Qed.

Lemma formData_keys (m : list (string * answer)) :
  fst <$> ((fun e => (fst e, answer_to_json (snd e))) <$> m) = fst <$> m.
Proof. induction m as [| e m IH]; cbn; [reflexivity | now rewrite IH]. Qed.

Lemma canonical_formData (m : list (string * answer)) :
  canonical_keys (fst <$> m) = true ->
  canonical (formData_to_json m) = true.
Proof.
  intros Hm. unfold formData_to_json. cbn [canonical].
  rewrite formData_keys, Hm. cbn.
  clear Hm. induction m as [| [k [s | b]] m IH]; cbn; [reflexivity | |];
    exact IH.
Qed.

Lemma canonical_log (log : list (list (string * answer))) :
  Forall (fun m => canonical_keys (fst <$> m) = true) log ->
  canonical (log_to_json log) = true.
Proof.
  unfold log_to_json. cbn [canonical].
  induction 1 as [| m log Hm _ IH]; [reflexivity |].
  cbn [fmap list_fmap forallb]. rewrite (canonical_formData m Hm). exact IH.
Qed.

(** ** Persistence *)

Lemma load_persisted (ts : list Template.t) (ls : gmap string string) :
  load_templates (persist ts ls) = Ok (templates_to_json ts).
Proof.
  unfold load_templates, persist, getItem, setItem.
  rewrite lookup_insert_eq.
  unfold templates_to_json at 1. rewrite stringify_truthy.
  apply JSON_roundtrip, canonical_templates.
Qed.

Lemma initial_persisted (ts : list Template.t) (ls : gmap string string) :
  initial_templates (persist ts ls) = Ok ts.
Proof.
  unfold initial_templates. rewrite load_persisted.
  cbn [mbind outcome_bind]. now rewrite exactly_templates_to_json.
Qed.

(** C4.  Persisting any template set under the key [templates] and loading
    it back gives the same set: the same templates in the same order, each
    with its id, its name and its sections in order, each section with its
    fields in order, each field with all its contents.  A TemplateBuilder
    mounted on that storage starts from this set and writes it back
    unchanged. *)
Theorem C4_persist_load_roundtrip
    (ts : list Template.t) (ls : gmap string string) :
  getItem (persist ts ls) "templates"
  = Some (JSON_stringify (templates_to_json ts)) /\
  load_templates (persist ts ls) = Ok (templates_to_json ts) /\
  initial_templates (persist ts ls) = Ok ts /\
  TemplateBuilder_mount (persist ts ls)
  = Ok (mkBuilder ts None, persist ts ls).
Proof.
  split; [| split; [| split]].
  - unfold persist, getItem, setItem. apply lookup_insert_eq.
  - apply load_persisted.
  - apply initial_persisted.
  - unfold TemplateBuilder_mount. rewrite initial_persisted.
    cbn [mbind outcome_bind]. do 2 f_equal.
    unfold persist, setItem. apply insert_insert_eq.
Qed.

(** After a step of the builder that sets [templates], the storage holds
    the text of the new template set, and loading it gives that set. *)
Lemma step_persists (w w' : Builder * gmap string string)
    (e : builder_event) :
  TemplateBuilder_step w e = Ok w' ->
  calls_setTemplates (fst w) e = true ->
  initial_templates (snd w') = Ok (templates (fst w')).
Proof.
  unfold TemplateBuilder_step.
  destruct (TemplateBuilder_handle (fst w) e) as [st' | |];
    cbn [mbind outcome_bind]; [| discriminate | discriminate].
  intros [= <-] ->. cbn [fst snd]. apply initial_persisted.
Qed.

(** From its first render on, whatever the events, the builder's template
    set is the one the storage holds. *)

Lemma mount_in_sync (ls : gmap string string)
    (w : Builder * gmap string string) :
  TemplateBuilder_mount ls = Ok w -> in_sync w.
Proof.
  unfold TemplateBuilder_mount.
  destruct (initial_templates ls) as [ts | |]; cbn [mbind outcome_bind];
    [| discriminate | discriminate].
  intros [= <-]. unfold in_sync, persist, getItem, setItem. cbn [fst snd].
  cbn [templates]. apply lookup_insert_eq.
Qed.

Lemma step_in_sync (w w' : Builder * gmap string string)
    (e : builder_event) :
  in_sync w -> TemplateBuilder_step w e = Ok w' -> in_sync w'.
Proof.
  unfold TemplateBuilder_step, in_sync. intros Hsync.
  destruct (TemplateBuilder_handle (fst w) e) as [st' | |] eqn:He;
    cbn [mbind outcome_bind]; [| discriminate | discriminate].
  intros [= <-]. cbn [fst snd].
  destruct (calls_setTemplates (fst w) e) eqn:Hcalls.
  - unfold persist, getItem, setItem. apply lookup_insert_eq.
  - assert (Hsame : templates st' = templates (fst w)); [| now rewrite Hsame].
    destruct e as [u1 u2 | k | j se | u];
      cbn [calls_setTemplates TemplateBuilder_handle] in Hcalls, He;
      try discriminate.
    + apply negb_false_iff in Hcalls. injection He as <-.
      unfold createTemplate. now rewrite Hcalls.
    + destruct (templates (fst w) !! k); [| discriminate].
      now injection He as <-.
Qed.

Lemma run_steps_in_sync (es : list builder_event)
    (w w' : Builder * gmap string string) :
  in_sync w -> run_steps w es = Ok w' ->
  in_sync w' /\ initial_templates (snd w') = Ok (templates (fst w')).
Proof.
  revert w. induction es as [| e es IH]; intros w Hsync; cbn [run_steps].
  - intros [= <-]. split; [assumption |].
    destruct w as [st ls]. unfold in_sync in Hsync. cbn [fst snd] in *.
    unfold initial_templates, load_templates. rewrite Hsync.
    unfold templates_to_json at 1. rewrite stringify_truthy.
    rewrite JSON_roundtrip by apply canonical_templates.
    cbn [mbind outcome_bind]. now rewrite exactly_templates_to_json.
  - destruct (TemplateBuilder_step w e) as [w1 | |] eqn:He;
      cbn [mbind outcome_bind]; [| discriminate | discriminate].
    apply IH. eapply step_in_sync; eauto.
Qed.



(** C3 as stated fails: with the text of an unfinished object under either
    key, loading the template set throws a SyntaxError, and so does the
    read of the submission log in [handleSubmit]. *)
Lemma C3_counterexample :
  let ls : gmap string string :=
    <["form_data_t1" := "{"]> {["templates" := "{"]} in
  load_templates ls = Throw SyntaxError /\
  read_log (Template.mk "t1" "Template 1" []) ls = Throw SyntaxError /\
  handleSubmit (Template.mk "t1" "Template 1" []) [] ls = Throw SyntaxError.
Proof. vm_compute. repeat split. Qed.

(** C3, amended.  For a missing key and for a stored empty string both load
    operations return the empty sequence and do not throw.  Any other
    stored value is handed to JSON.parse and the load is its result: the
    parsed value, or the exception JSON.parse throws on a text that is not
    JSON, which reaches the caller. *)
Theorem C3_load_fallback_on_missing
    (ls : gmap string string) (template : Template.t) :
  (getItem ls "templates" = None \/ getItem ls "templates" = Some EmptyString ->
     load_templates ls = Ok (JArr []) /\ initial_templates ls = Ok []) /\
  (getItem ls (form_data_key template) = None \/
   getItem ls (form_data_key template) = Some EmptyString ->
     read_log template ls = Ok (JArr []) /\
     forall m, exists r,
       handleSubmit template m ls = Ok r /\
       getItem (storage_after r) (form_data_key template)
       = Some (JSON_stringify (JArr [formData_to_json m]))) /\
  (forall stored,
     getItem ls "templates" = Some stored -> stored <> EmptyString ->
     load_templates ls = JSON_parse stored) /\
  (forall stored,
     getItem ls (form_data_key template) = Some stored -> stored <> EmptyString ->
     read_log template ls = JSON_parse stored /\
     forall e m, JSON_parse stored = Throw e ->
                 handleSubmit template m ls = Throw e).
Proof.
  assert (Htruthy : forall s, s <> EmptyString -> truthy s = true).
  { intros s Hs. unfold truthy. apply negb_true_iff.
    now apply String.eqb_neq. }
  split; [| split; [| split]].
  - intros H. unfold initial_templates, load_templates.
    destruct H as [-> | ->]; split; reflexivity.
  - intros H.
    assert (Hread : read_log template ls = Ok (JArr [])).
    { unfold read_log. destruct H as [-> | ->]; reflexivity. }
    split; [exact Hread |]. intros m. eexists.
    unfold handleSubmit. rewrite Hread. cbn [mbind outcome_bind spread app].
    split; [reflexivity |]. cbn [storage_after].
    unfold getItem, setItem. apply lookup_insert_eq.
  - intros stored Hget Hne. unfold load_templates.
    now rewrite Hget, Htruthy.
  - intros stored Hget Hne.
    assert (Hread : read_log template ls = JSON_parse stored).
    { unfold read_log. rewrite Hget. cbn [or_else]. now rewrite Htruthy. }
    split; [exact Hread |]. intros e m He.
    unfold handleSubmit. now rewrite Hread, He.
Qed.

Lemma C3_witness :
  load_templates ∅ = Ok (JArr []) /\
  load_templates {["templates" := "{"]} = JSON_parse "{".
Proof.
  split.
  - apply (proj1 (C3_load_fallback_on_missing ∅ (Template.mk "t1" "n" []))).
    left. reflexivity.
  - apply (proj1 (proj2 (proj2
             (C3_load_fallback_on_missing {["templates" := "{"]}
                                          (Template.mk "t1" "n" [])))) "{").
    + reflexivity.
    + discriminate.
Defined.

(** * Further properties of the components *)

(** ** The options input of the FieldEditor *)

Lemma split_comma_nonempty (s : string) : split_comma s <> [].
Proof.
  destruct s as [| c r]; cbn [split_comma]; [discriminate |].
  destruct (Ascii.eqb c ","%char); [discriminate |].
  destruct (split_comma r); discriminate.
Qed.

Lemma join_comma_cons (x : string) (l : list string) :
  l <> [] -> join_comma (x :: l) = x +:+ "," +:+ join_comma l.
Proof. destruct l; [congruence | reflexivity]. Qed.

Lemma join_comma_char (c : ascii) (h : string) (t : list string) :
  join_comma (String c h :: t) = String c (join_comma (h :: t)).
Proof. destruct t; reflexivity. Qed.

Lemma join_split (s : string) : join_comma (split_comma s) = s.
Proof.
  induction s as [| c r IH]; [reflexivity |]. cbn [split_comma].
  destruct (Ascii.eqb_spec c ","%char) as [-> | Hc].
  - rewrite join_comma_cons by apply split_comma_nonempty.
    now rewrite IH.
  - pose proof (split_comma_nonempty r) as Hne.
    destruct (split_comma r) as [| h t]; [congruence |].
    rewrite join_comma_char. now rewrite IH.
Qed.

Lemma or_else_self (s : string) : or_else (Some s) EmptyString = s.
Proof. destruct s; reflexivity. Qed.

(** X1.  The options input is a faithful controlled input: after the text
    [v] is typed into it, the value it shows is [v] again, whatever [v] is
    (commas, empty pieces, the empty text).  The options also survive a
    change of the field's type and back: the input then shows [v] still. *)
Theorem X1_options_input_shows_typed_text
    (field : Field.t) (v t : string) :
  FieldEditor_options_value (FieldEditor_options field v) = v /\
  FieldEditor_options_value
    (FieldEditor_type (FieldEditor_type (FieldEditor_options field v) t)
                      "enum") = v.
Proof.
  unfold FieldEditor_options_value, FieldEditor_options, FieldEditor_type.
  cbn [Field.options fmap option_fmap option_map].
  rewrite join_split. split; apply or_else_self.
Qed.

Lemma split_comma_length (s : string) :
  length (split_comma s)
  = S (count_occ Ascii.ascii_dec (chars s) ","%char).
Proof.
  induction s as [| c r IH]; [reflexivity |].
  cbn [split_comma chars list_ascii_of_string count_occ].
  fold (chars r).
  destruct (Ascii.eqb_spec c ","%char) as [-> | Hc].
  - destruct (Ascii.ascii_dec ","%char ","%char); [| congruence].
    cbn [length]. now rewrite IH.
  - destruct (Ascii.ascii_dec c ","%char); [congruence |].
    pose proof (split_comma_nonempty r) as Hne.
    destruct (split_comma r) as [| h t]; [congruence |].
    cbn [length] in *. exact IH.
Qed.

Lemma split_comma_free (s : string) :
  Forall (fun o => ~ In ","%char (chars o)) (split_comma s).
Proof.
  induction s as [| c r IH]; cbn [split_comma].
  - constructor; [cbn; tauto | constructor].
  - destruct (Ascii.eqb_spec c ","%char) as [-> | Hc].
    + constructor; [cbn; tauto | exact IH].
    + pose proof (split_comma_nonempty r) as Hne.
      destruct (split_comma r) as [| h t]; [congruence |].
      apply Forall_cons in IH as [Hh Ht]. constructor; [| exact Ht].
      cbn [chars list_ascii_of_string In]. fold (chars h).
      intros [Heq | Hin]; [congruence | contradiction].
Qed.

(** X2.  The text [v] typed into the options input becomes one option per
    comma of [v] plus one, none of them containing a comma; in particular
    the list is never empty: clearing the input leaves one empty option. *)
Theorem X2_options_split_shape (field : Field.t) (v : string) :
  exists os,
    Field.options (FieldEditor_options field v) = Some os /\
    length os = S (count_occ Ascii.ascii_dec (chars v) ","%char) /\
    Forall (fun o => ~ In ","%char (chars o)) os /\
    os <> [] /\
    Field.options (FieldEditor_options field EmptyString)
    = Some [EmptyString].
Proof.
  exists (split_comma v). split; [reflexivity |].
  split; [apply split_comma_length |]. split; [apply split_comma_free |].
  split; [apply split_comma_nonempty | reflexivity].
Qed.

Lemma split_comma_free_piece (x r : string) :
  ~ In ","%char (chars x) ->
  split_comma x = [x] /\
  split_comma (x +:+ String ","%char r) = x :: split_comma r.
Proof.
  induction x as [| c x IH]; intros Hfree.
  - split; reflexivity.
  - cbn [chars list_ascii_of_string In] in Hfree. fold (chars x) in Hfree.
    destruct IH as [IH1 IH2]; [tauto |].
    destruct (Ascii.eqb_spec c ","%char) as [-> | Hc]; [tauto |].
    apply Ascii.eqb_neq in Hc. split.
    + cbn [split_comma]. now rewrite Hc, IH1.
    + change (String c x +:+ ?s) with (String c (x +:+ s)).
      cbn [split_comma]. now rewrite Hc, IH2.
Qed.

(** X3.  Conversely, for options that contain no comma (and at least one
    option), typing the text the options input shows gives the same
    options back. *)
Theorem X3_options_text_round_trip
    (field : Field.t) (os : list string)
    (Hne : os <> [])
    (Hfree : Forall (fun o => ~ In ","%char (chars o)) os) :
  Field.options (FieldEditor_options field (join_comma os)) = Some os.
Proof.
  unfold FieldEditor_options. cbn [Field.options]. f_equal.
  induction Hfree as [| x l Hx Hl IH]; [congruence |].
  destruct l as [| y l'].
  - cbn [join_comma]. now apply split_comma_free_piece with (r := EmptyString).
  - rewrite join_comma_cons by discriminate.
    change ("," +:+ ?r) with (String ","%char r).
    rewrite (proj2 (split_comma_free_piece x _ Hx)).
    f_equal. now apply IH.
Qed.

Lemma X3_witness :
  Field.options
    (FieldEditor_options (Field.mk "f" "enum" "Size" None) "S,M,L")
  = Some ["S"; "M"; "L"].
Proof.
  apply (X3_options_text_round_trip (Field.mk "f" "enum" "Size" None)
           ["S"; "M"; "L"]).
  - discriminate.
  - repeat constructor; cbn; intros H;
      repeat (destruct H as [H | H]; [discriminate |]); exact H.
Defined.

(** ** Section events *)

(** X4.  Typing [v] into the label input of the FieldEditor at position
    [i] always succeeds and changes the label of that field only: its id,
    type and options, every other field, the number of fields and the
    section's id and title are as before. *)
Theorem X4_label_edit_frame
    (section : Sect.t) (i : nat) (field : Field.t) (v : string)
    (Hfield : Sect.fields section !! i = Some field) :
  exists section',
    Section_handle section (OnField i (ChangeLabel v)) = Ok section' /\
    Sect.fields section' !! i
    = Some (Field.mk (Field.id field) (Field.type field) v
                     (Field.options field)) /\
    (forall k, k <> i ->
       Sect.fields section' !! k = Sect.fields section !! k) /\
    length (Sect.fields section') = length (Sect.fields section) /\
    Sect.id section' = Sect.id section /\
    Sect.title section' = Sect.title section.
Proof.
  assert (Hi : i < length (Sect.fields section))
    by (eapply lookup_lt_Some; eauto).
  eexists. split.
  { cbn [Section_handle]. rewrite Hfield.
    now apply updateField_in_range. }
  cbn [Sect.fields Sect.id Sect.title].
  split; [now rewrite list_lookup_insert_eq |].
  split; [intros k Hk; now rewrite list_lookup_insert_ne |].
  split; [apply length_insert |]. now split.
Qed.

Lemma X4_witness :
  exists section',
    Section_handle
      (Sect.mk "s" "t" [Field.mk "a" "text" "x" None;
                        Field.mk "b" "enum" "y" (Some ["1"; "2"])])
      (OnField 1 (ChangeLabel "Size")) = Ok section' /\
    Sect.fields section' !! 1
    = Some (Field.mk "b" "enum" "Size" (Some ["1"; "2"])).
Proof.
  destruct (X4_label_edit_frame
              (Sect.mk "s" "t" [Field.mk "a" "text" "x" None;
                                Field.mk "b" "enum" "y" (Some ["1"; "2"])])
              1 (Field.mk "b" "enum" "y" (Some ["1"; "2"])) "Size" eq_refl)
    as (section' & Hok & Hi & _).
  exists section'. split; [exact Hok | exact Hi].
Defined.

Lemma splice_last {A : Type} (a : list A) (x : A) :
  splice (a ++ [x]) (length a) 1 = a.
Proof.
  unfold splice. rewrite take_app_length.
  rewrite drop_ge by (rewrite length_app; cbn [length]; lia).
  apply app_nil_r.
Qed.

(** X5.  "Add Field" followed by "Delete" on the field just added gives
    the section back exactly as it was. *)
Theorem X5_add_then_delete_restores (section : Sect.t) (u : string) :
  exists added,
    Section_handle section (ClickAddField u) = Ok added /\
    Section_handle added (OnField (length (Sect.fields section)) ClickDelete)
    = Ok section.
Proof.
  exists (Section_addField section u). split; [reflexivity |].
  cbn [Section_handle Section_addField Sect.fields].
  rewrite list_lookup_middle by reflexivity.
  unfold deleteField, Section_addField. cbn [Sect.fields Sect.id Sect.title].
  rewrite splice_last. now destruct section.
Qed.

Lemma updateField_ids (section section' : Sect.t) (i : nat)
    (field updated : Field.t) :
  Sect.fields section !! i = Some field ->
  Field.id updated = Field.id field ->
  updateField section i updated = Ok section' ->
  Field.id <$> Sect.fields section' = Field.id <$> Sect.fields section /\
  Sect.id section' = Sect.id section.
Proof.
  intros Hfield Hid.
  rewrite updateField_in_range by (eapply lookup_lt_Some; eauto).
  intros [= <-]. cbn [Sect.fields Sect.id]. split; [| reflexivity].
  rewrite list_fmap_insert, Hid. apply list_insert_id.
  now rewrite list_lookup_fmap, Hfield.
Qed.

(** X6.  No event of a Section changes the section's id, and field ids
    stay pairwise distinct: the three inputs of a FieldEditor keep every
    field id where it is, "Delete" removes one, and "Add Field" adds the id
    it is given, which is fresh. *)
Theorem X6_section_events_keep_ids_distinct
    (section section' : Sect.t) (e : section_event)
    (Hdistinct : NoDup (Field.id <$> Sect.fields section))
    (Hfresh : field_id_fresh section e)
    (Hok : Section_handle section e = Ok section') :
  Sect.id section' = Sect.id section /\
  NoDup (Field.id <$> Sect.fields section') /\
  (forall i fe, e = OnField i fe -> fe <> ClickDelete ->
     Field.id <$> Sect.fields section' = Field.id <$> Sect.fields section).
Proof.
  destruct e as [v | i fe | u]; cbn [Section_handle] in Hok.
  - injection Hok as <-. cbn [Section_title Sect.id Sect.fields].
    split; [reflexivity |]. split; [assumption | discriminate].
  - destruct (Sect.fields section !! i) as [field |] eqn:Hfield;
      [| discriminate].
    assert (Hedit : forall updated,
              Field.id updated = Field.id field ->
              updateField section i updated = Ok section' ->
              Sect.id section' = Sect.id section /\
              NoDup (Field.id <$> Sect.fields section') /\
              (forall i0 fe0, OnField i fe = OnField i0 fe0 ->
                 fe0 <> ClickDelete ->
                 Field.id <$> Sect.fields section'
                 = Field.id <$> Sect.fields section)).
    { intros updated Hid Hupd.
      destruct (updateField_ids _ _ _ _ _ Hfield Hid Hupd) as [Hids Hsid].
      split; [assumption |]. split; [now rewrite Hids | now intros]. }
    destruct fe as [v | v | v |].
    + destruct (mem v FIELD_TYPES); [| discriminate].
      now apply (Hedit (FieldEditor_type field v)).
    + now apply (Hedit (FieldEditor_label field v)).
    + destruct (String.eqb (Field.type field) "enum"); [| discriminate].
      now apply (Hedit (FieldEditor_options field v)).
    + injection Hok as <-. cbn [deleteField Sect.id Sect.fields].
      split; [reflexivity |]. split; [| intros ? ? [= _ <-]; congruence].
      destruct (splice_one _ _ _ Hfield) as (pre & post & Hsplit & _ & ->).
      rewrite Hsplit in Hdistinct. rewrite fmap_app in *.
      rewrite fmap_cons in Hdistinct.
      apply NoDup_app in Hdistinct as (Hpre & Hdisj & Hpost).
      apply NoDup_cons in Hpost as [_ Hpost].
      apply NoDup_app. split; [assumption |]. split; [| assumption].
      intros x Hx Hx'. apply (Hdisj x Hx). now right.
  - injection Hok as <-. cbn [Section_addField Sect.id Sect.fields].
    split; [reflexivity |]. split; [| discriminate].
    cbn [field_id_fresh] in Hfresh.
    rewrite fmap_app. apply NoDup_app. split; [assumption |]. split.
    + intros x Hx Hx'. cbn in Hx'. apply list_elem_of_singleton in Hx'.
      now subst x.
    + cbn. apply NoDup_singleton.
Qed.

Lemma X6_witness :
  let section :=
    Sect.mk "s" "t" [Field.mk "a" "text" "x" None;
                     Field.mk "b" "text" "y" None] in
  exists section',
    Section_handle section (OnField 0 ClickDelete) = Ok section' /\
    NoDup (Field.id <$> Sect.fields section').
Proof.
  intros section. exists (deleteField section 0).
  split; [reflexivity |].
  apply (X6_section_events_keep_ids_distinct section (deleteField section 0)
           (OnField 0 ClickDelete)).
  - cbn. apply NoDup_cons. split.
    + intros H. apply list_elem_of_singleton in H. discriminate.
    + apply NoDup_singleton.
  - exact I.
  - reflexivity.
Defined.

(** ** Runs of the builder *)

(** What one event does to the template set: nothing, one template more at
    the end, or new sections for the entries with the selected id. *)
Lemma handle_templates (st st' : Builder) (e : builder_event) :
  TemplateBuilder_handle st e = Ok st' ->
  templates st' = templates st \/
  (exists u1 u2,
     e = ClickCreate u1 u2 /\
     templates st'
     = templates st
       ++ [Template.mk u1
             ("Template " +:+ pretty (length (templates st) + 1))
             [Sect.mk u2 "Section 1" []]]) \/
  (exists cur secs,
     currentTemplate st = Some cur /\ st' = set_sections st cur secs).
Proof.
  destruct e as [u1 u2 | k | j se | u]; cbn [TemplateBuilder_handle].
  - intros [= <-]. unfold createTemplate.
    destruct (5 <=? length (templates st)); [now left |].
    right. left. now exists u1, u2.
  - destruct (templates st !! k); [| discriminate]. intros [= <-]. now left.
  - destruct (currentTemplate st) as [cur |] eqn:Hcur; [| discriminate].
    destruct (Template.sections cur !! j) as [section |]; [| discriminate].
    destruct (Section_handle section se) as [s | |];
      cbn [mbind outcome_bind]; [| discriminate | discriminate].
    unfold updateSection. rewrite Hcur.
    destruct (array_assign (Template.sections cur) j s) as [secs | |];
      cbn [mbind outcome_bind]; [| discriminate | discriminate].
    intros [= <-]. right. right. now exists cur, secs.
  - destruct (currentTemplate st) as [cur |] eqn:Hcur; [| discriminate].
    unfold addSection. rewrite Hcur. intros [= <-].
    right. right. now eexists cur, _.
Qed.

Lemma set_sections_fmap {B : Type} (g : Template.t -> B) (st : Builder)
    (cur : Template.t) (secs : list Sect.t) :
  (forall t, g (with_sections t secs) = g t) ->
  g <$> templates (set_sections st cur secs) = g <$> templates st.
Proof.
  intros Hg. unfold set_sections. cbn [templates].
  rewrite <- list_fmap_compose. apply list_fmap_ext. intros _ t _. cbn.
  destruct (String.eqb (Template.id t) (Template.id cur)); [apply Hg | easy].
Qed.

Lemma handle_named_in_order (st st' : Builder) (e : builder_event) :
  named_in_order (templates st) ->
  TemplateBuilder_handle st e = Ok st' ->
  named_in_order (templates st').
Proof.
  intros Hn He.
  destruct (handle_templates _ _ _ He)
    as [-> | [(u1 & u2 & _ & ->) | (cur & secs & _ & ->)]].
  - assumption.
  - intros k t Hk. apply lookup_app_Some in Hk as [Hk | [Hlen Hk]].
    + now apply Hn.
    + destruct (k - length (templates st)) as [| n] eqn:Hd;
        [| discriminate].
      injection Hk as <-. cbn [Template.name].
      replace k with (length (templates st)) by lia. reflexivity.
  - intros k t Hk. unfold set_sections in Hk. cbn [templates] in Hk.
    rewrite list_lookup_fmap in Hk.
    destruct (templates st !! k) as [t0 |] eqn:Hk0; [| discriminate].
    injection Hk as <-. rewrite <- (Hn k t0 Hk0).
    now destruct (String.eqb (Template.id t0) (Template.id cur)).
Qed.

Lemma append_cancel (p a b : string) : p +:+ a = p +:+ b -> a = b.
Proof.
  induction p as [| c p IH]; [easy |].
  change (String c p +:+ ?s) with (String c (p +:+ s)).
  intros [= H]. now apply IH.
Qed.

Lemma named_in_order_distinct (ts : list Template.t) :
  named_in_order ts -> NoDup (Template.name <$> ts).
Proof.
  intros Hn. apply NoDup_alt. intros i j x Hi Hj.
  rewrite list_lookup_fmap in Hi, Hj.
  destruct (ts !! i) as [ti |] eqn:Ei; [| discriminate].
  destruct (ts !! j) as [tj |] eqn:Ej; [| discriminate].
  cbn [fmap option_fmap option_map] in Hi, Hj.
  injection Hi as Hi. injection Hj as Hj.
  rewrite (Hn _ _ Ei) in Hi. rewrite (Hn _ _ Ej) in Hj.
  rewrite <- Hj in Hi. apply append_cancel in Hi.
  apply (inj pretty) in Hi. lia.
Qed.

(** X7.  Templates are numbered by position: in a set where position [k]
    holds "Template k+1" (the empty set of a first start, or a set this
    builder wrote), that stays so whatever the events, and therefore no two
    templates ever have the same name. *)
Theorem X7_template_names_follow_positions
    (st st' : Builder) (es : list builder_event)
    (Hnamed : named_in_order (templates st))
    (Hrun : run st es = Ok st') :
  named_in_order (templates st') /\
  NoDup (Template.name <$> templates st').
Proof.
  assert (H : named_in_order (templates st')).
  { revert st Hnamed Hrun. induction es as [| e es IH]; intros st Hn;
      cbn [run].
    - now intros [= <-].
    - destruct (TemplateBuilder_handle st e) as [st1 | |] eqn:He;
        cbn [mbind outcome_bind]; [| discriminate | discriminate].
      apply IH. eapply handle_named_in_order; eauto. }
  split; [exact H | now apply named_in_order_distinct].
Qed.

Lemma X7_witness :
  exists st',
    run (mkBuilder [] None)
        [ClickCreate "a" "sa"; OnSection 0 (ChangeTitle "Intro");
         ClickCreate "b" "sb"] = Ok st' /\
    NoDup (Template.name <$> templates st').
Proof.
  destruct (run (mkBuilder [] None)
              [ClickCreate "a" "sa"; OnSection 0 (ChangeTitle "Intro");
               ClickCreate "b" "sb"]) as [st' | |] eqn:Hrun;
    [| vm_compute in Hrun; discriminate | vm_compute in Hrun; discriminate].
  exists st'. split; [reflexivity |].
  apply (X7_template_names_follow_positions (mkBuilder [] None) st' _
           ltac:(intros k t Hk; destruct k; discriminate) Hrun).
Defined.

Lemma handle_identities_prefix (st st' : Builder) (e : builder_event) :
  TemplateBuilder_handle st e = Ok st' ->
  ((fun t => (Template.id t, Template.name t)) <$> templates st)
    `prefix_of`
  ((fun t => (Template.id t, Template.name t)) <$> templates st').
Proof.
  intros He.
  destruct (handle_templates _ _ _ He)
    as [-> | [(u1 & u2 & _ & ->) | (cur & secs & _ & ->)]].
  - reflexivity.
  - rewrite fmap_app. now apply prefix_app_r.
  - now rewrite set_sections_fmap.
Qed.

(** X8.  The builder never deletes, reorders, renames or re-identifies a
    template: after any events, the (id, name) sequence of the old template
    set is a prefix of that of the new one. *)
Theorem X8_templates_only_grow_at_the_end
    (st st' : Builder) (es : list builder_event)
    (Hrun : run st es = Ok st') :
  ((fun t => (Template.id t, Template.name t)) <$> templates st)
    `prefix_of`
  ((fun t => (Template.id t, Template.name t)) <$> templates st').
Proof.
  revert st Hrun. induction es as [| e es IH]; intros st; cbn [run].
  - now intros [= <-].
  - destruct (TemplateBuilder_handle st e) as [st1 | |] eqn:He;
      cbn [mbind outcome_bind]; [| discriminate | discriminate].
    intros Hrun.
    transitivity ((fun t => (Template.id t, Template.name t))
                    <$> templates st1);
      [now apply (handle_identities_prefix st st1 e) | now apply IH].
Qed.

Lemma X8_witness :
  let t1 := Template.mk "t1" "Template 1" [Sect.mk "s1" "Section 1" []] in
  exists st',
    run (mkBuilder [t1] None)
        [ClickTemplate 0; ClickAddSection "s2"; ClickCreate "t2" "s3"]
    = Ok st' /\
    [("t1", "Template 1")]
      `prefix_of`
    ((fun t => (Template.id t, Template.name t)) <$> templates st').
Proof.
  intros t1.
  destruct (run (mkBuilder [t1] None)
              [ClickTemplate 0; ClickAddSection "s2"; ClickCreate "t2" "s3"])
    as [st' | |] eqn:Hrun;
    [| vm_compute in Hrun; discriminate | vm_compute in Hrun; discriminate].
  exists st'. split; [reflexivity |].
  apply (X8_templates_only_grow_at_the_end (mkBuilder [t1] None) st' _ Hrun).
Defined.

(** X9.  From the first render of the TemplateBuilder on, whatever the
    events, the selected template is one of the entries of the template
    set: the copy shown for editing and the set that is persisted do not
    drift apart. *)
Theorem X9_selected_template_is_in_the_set
    (ls ls' : gmap string string) (st st' : Builder)
    (es : list builder_event) (cur : Template.t)
    (Hmount : TemplateBuilder_mount ls = Ok (st, ls'))
    (Hrun : run st es = Ok st')
    (Hcur : currentTemplate st' = Some cur) :
  cur ∈ templates st'.
Proof.
  apply (run_selected_in_set es st st'); try assumption.
  eapply mount_selected_in_set; eauto.
Qed.

Lemma X9_witness :
  exists st' cur,
    run (mkBuilder [] None)
        [ClickCreate "a" "sa"; ClickAddSection "sb";
         OnSection 1 (ClickAddField "f")] = Ok st' /\
    currentTemplate st' = Some cur /\ cur ∈ templates st'.
Proof.
  destruct (run (mkBuilder [] None)
              [ClickCreate "a" "sa"; ClickAddSection "sb";
               OnSection 1 (ClickAddField "f")]) as [st' | |] eqn:Hrun;
    [| vm_compute in Hrun; discriminate | vm_compute in Hrun; discriminate].
  destruct (currentTemplate st') as [cur |] eqn:Hcur;
    [| vm_compute in Hrun; injection Hrun as <-; discriminate].
  exists st', cur. split; [reflexivity |]. split; [exact Hcur |].
  eapply (X9_selected_template_is_in_the_set ∅ (persist [] ∅)
            (mkBuilder [] None) st'); [| exact Hrun | exact Hcur].
  vm_compute. reflexivity.
Defined.

Lemma handle_well_formed (st st' : Builder) (e : builder_event) :
  well_formed st ->
  match e with
  | ClickCreate u1 _ => u1 ∉ Template.id <$> templates st
  | _ => True
  end ->
  TemplateBuilder_handle st e = Ok st' ->
  well_formed st'.
Proof.
  intros [Hnd Hsel] Hfresh He.
  split; [| eapply handle_selected_in_set; eauto].
  destruct (handle_templates _ _ _ He)
    as [-> | [(u1 & u2 & -> & ->) | (cur & secs & _ & ->)]].
  - assumption.
  - rewrite fmap_app. apply NoDup_app. split; [assumption |]. split.
    + intros x Hx Hx'. cbn in Hx'. apply list_elem_of_singleton in Hx'.
      now subst x.
    + cbn. apply NoDup_singleton.
  - now rewrite set_sections_fmap.
Qed.

Lemma run_well_formed (es : list builder_event) (st st' : Builder) :
  well_formed st -> creates_fresh st es -> run st es = Ok st' ->
  well_formed st'.
Proof.
  revert st. induction es as [| e es IH]; intros st Hwf Hfresh;
    cbn [run].
  - now intros [= <-].
  - cbn [creates_fresh] in Hfresh. destruct Hfresh as [Hnow Hlater].
    destruct (TemplateBuilder_handle st e) as [st1 | |] eqn:He;
      cbn [mbind outcome_bind]; [| discriminate | discriminate].
    apply IH; [| assumption]. eapply handle_well_formed; eauto.
Qed.

Lemma well_formed_entry (st : Builder) (cur t : Template.t) :
  well_formed st -> currentTemplate st = Some cur ->
  t ∈ templates st -> Template.id t = Template.id cur -> t = cur.
Proof.
  intros [Hnd Hsel] Hcur Ht Hid.
  apply Hsel in Hcur.
  apply list_elem_of_lookup in Ht as [i Hi].
  apply list_elem_of_lookup in Hcur as [j Hj].
  assert (i = j) as ->; [| congruence].
  apply (NoDup_lookup _ i j (Template.id cur) Hnd);
    rewrite list_lookup_fmap.
  - now rewrite Hi, <- Hid.
  - now rewrite Hj.
Qed.

(** X10.  When every "Create New Template" receives an id not yet in the
    set (the uuid contract), template ids stay pairwise distinct, and the
    only entry of the set with the selected template's id is the selected
    template itself, content included. *)
Theorem X10_selected_entry_is_unique_and_equal
    (st st' : Builder) (es : list builder_event)
    (Hwf : well_formed st)
    (Hfresh : creates_fresh st es)
    (Hrun : run st es = Ok st') :
  NoDup (Template.id <$> templates st') /\
  (forall cur t,
     currentTemplate st' = Some cur ->
     t ∈ templates st' -> Template.id t = Template.id cur -> t = cur).
Proof.
  pose proof (run_well_formed es st st' Hwf Hfresh Hrun) as Hwf'.
  split; [apply Hwf' |].
  intros cur t. now apply well_formed_entry.
Qed.

Lemma X10_witness :
  exists st',
    run (mkBuilder [] None)
        [ClickCreate "a" "sa"; ClickCreate "b" "sb"; ClickTemplate 0;
         ClickAddSection "sc"] = Ok st' /\
    NoDup (Template.id <$> templates st').
Proof.
  destruct (run (mkBuilder [] None)
              [ClickCreate "a" "sa"; ClickCreate "b" "sb"; ClickTemplate 0;
               ClickAddSection "sc"]) as [st' | |] eqn:Hrun;
    [| vm_compute in Hrun; discriminate | vm_compute in Hrun; discriminate].
  exists st'. split; [reflexivity |].
  eapply (X10_selected_entry_is_unique_and_equal (mkBuilder [] None) st');
    [| | exact Hrun].
  - split; [apply NoDup_nil_2 | intros cur; discriminate].
  - cbn. repeat split.
    + intros H. inversion H.
    + intros H. apply list_elem_of_singleton in H. discriminate.
Defined.

Lemma set_sections_one_entry (st : Builder) (cur : Template.t) (k : nat)
    (secs : list Sect.t) :
  NoDup (Template.id <$> templates st) ->
  templates st !! k = Some cur ->
  templates (set_sections st cur secs)
  = <[k := with_sections cur secs]> (templates st).
Proof.
  intros Hnd Hk. apply list_eq. intros i.
  unfold set_sections. cbn [templates]. rewrite list_lookup_fmap.
  destruct (decide (i = k)) as [-> | Hne].
  - rewrite Hk. cbn. rewrite String.eqb_refl.
    rewrite list_lookup_insert_eq by (eapply lookup_lt_Some; eauto).
    reflexivity.
  - rewrite list_lookup_insert_ne by congruence.
    destruct (templates st !! i) as [t |] eqn:Hi; [| reflexivity].
    cbn. destruct (String.eqb_spec (Template.id t) (Template.id cur))
      as [Hid | _]; [| reflexivity].
    exfalso. apply Hne.
    apply (NoDup_lookup _ i k (Template.id cur) Hnd);
      rewrite list_lookup_fmap.
    + rewrite Hi. cbn. now rewrite Hid.
    + now rewrite Hk.
Qed.

Lemma section_edit_sets (st st' : Builder) (cur : Template.t)
    (e : builder_event) :
  match e with
  | OnSection _ _ | ClickAddSection _ => True
  | _ => False
  end ->
  currentTemplate st = Some cur ->
  TemplateBuilder_handle st e = Ok st' ->
  exists secs, st' = set_sections st cur secs.
Proof.
  intros Hedit Hcur.
  destruct e as [u1 u2 | j | j se | u]; try contradiction;
    cbn [TemplateBuilder_handle]; rewrite Hcur.
  - destruct (Template.sections cur !! j) as [section |]; [| discriminate].
    destruct (Section_handle section se) as [s | |];
      cbn [mbind outcome_bind]; try discriminate.
    unfold updateSection. rewrite Hcur.
    destruct (array_assign (Template.sections cur) j s) as [secs | |];
      cbn [mbind outcome_bind]; try discriminate.
    intros [= <-]. now exists secs.
  - unfold addSection. rewrite Hcur. intros [= <-]. now eexists.
Qed.

(** X11.  With distinct template ids, the update of the template set "by
    id" done by a section change or by "Add Section" is an update of one
    position: the set afterwards is the old set with the selected
    template's entry replaced by the new selected template. *)
Theorem X11_update_by_id_is_update_of_one_entry
    (st st' : Builder) (cur : Template.t) (k : nat) (e : builder_event)
    (Hdistinct : NoDup (Template.id <$> templates st))
    (Hcur : currentTemplate st = Some cur)
    (Hk : templates st !! k = Some cur)
    (Hedit : match e with
             | OnSection _ _ | ClickAddSection _ => True
             | _ => False
             end)
    (Hok : TemplateBuilder_handle st e = Ok st') :
  exists cur',
    currentTemplate st' = Some cur' /\
    templates st' = <[k := cur']> (templates st).
Proof.
  destruct (section_edit_sets st st' cur e Hedit Hcur Hok) as [secs ->].
  exists (with_sections cur secs). split; [reflexivity |].
  now apply set_sections_one_entry.
Qed.

Lemma X11_witness :
  let t1 := Template.mk "t1" "Template 1" [] in
  let t2 := Template.mk "t2" "Template 2" [] in
  exists st' cur',
    TemplateBuilder_handle (mkBuilder [t1; t2] (Some t2))
                           (ClickAddSection "s") = Ok st' /\
    templates st' = [t1; cur'].
Proof.
  intros t1 t2.
  destruct (TemplateBuilder_handle (mkBuilder [t1; t2] (Some t2))
              (ClickAddSection "s")) as [st' | |] eqn:Hok;
    [| discriminate | discriminate].
  assert (Hdistinct : NoDup (Template.id <$> [t1; t2])).
  { cbn. apply NoDup_cons. split.
    - intros H. apply list_elem_of_singleton in H. discriminate.
    - apply NoDup_singleton. }
  destruct (X11_update_by_id_is_update_of_one_entry
              (mkBuilder [t1; t2] (Some t2)) st' t2 1 (ClickAddSection "s")
              Hdistinct eq_refl eq_refl I Hok)
    as (cur' & _ & Hset).
  exists st', cur'. split; [reflexivity | exact Hset].
Defined.

(** ** The builder and the storage *)

Lemma step_other_keys (w w' : Builder * gmap string string)
    (e : builder_event) (key : string) :
  key <> "templates" ->
  TemplateBuilder_step w e = Ok w' ->
  getItem (snd w') key = getItem (snd w) key.
Proof.
  intros Hkey. unfold TemplateBuilder_step.
  destruct (TemplateBuilder_handle (fst w) e) as [st' | |];
    cbn [mbind outcome_bind]; [| discriminate | discriminate].
  intros [= <-]. cbn [snd].
  destruct (calls_setTemplates (fst w) e); [| reflexivity].
  unfold persist, getItem, setItem. now apply lookup_insert_ne.
Qed.

Lemma run_steps_other_keys (es : list builder_event)
    (w w' : Builder * gmap string string) (key : string) :
  key <> "templates" ->
  run_steps w es = Ok w' ->
  getItem (snd w') key = getItem (snd w) key.
Proof.
  intros Hkey. revert w. induction es as [| e es IH]; intros w;
    cbn [run_steps].
  - now intros [= <-].
  - destruct (TemplateBuilder_step w e) as [w1 | |] eqn:He;
      cbn [mbind outcome_bind]; [| discriminate | discriminate].
    intros Hrun. rewrite (IH _ Hrun). now apply (step_other_keys w w1 e).
Qed.

Lemma mount_writes_parsed (ls : gmap string string)
    (w : Builder * gmap string string) :
  TemplateBuilder_mount ls = Ok w ->
  exists v,
    load_templates ls = Ok v /\
    v = templates_to_json (templates (fst w)) /\
    snd w = setItem ls "templates" (JSON_stringify v).
Proof.
  unfold TemplateBuilder_mount, initial_templates.
  destruct (load_templates ls) as [v | |]; cbn [mbind outcome_bind];
    [| discriminate | discriminate].
  destruct (exactly_templates v) as [ts |] eqn:Hexact;
    cbn [mbind outcome_bind]; [| discriminate].
  intros [= <-]. exists v. cbn [fst snd templates].
  apply exactly_templates_inv in Hexact.
  split; [reflexivity |]. split; [assumption |].
  unfold persist. now rewrite Hexact.
Qed.

(** X12.  The effect of the first render writes back, under [templates],
    the text of the very value the initializer parsed.  From then on,
    whatever the events, the storage holds the text of the builder's
    current template set, so that loading it gives exactly that set; and
    the builder writes no key but [templates]: every other key is as it was
    before the mount. *)
Theorem X12_storage_follows_the_template_set
    (ls : gmap string string) (w w' : Builder * gmap string string)
    (es : list builder_event)
    (Hmount : TemplateBuilder_mount ls = Ok w)
    (Hrun : run_steps w es = Ok w') :
  (exists v,
     load_templates ls = Ok v /\
     snd w = setItem ls "templates" (JSON_stringify v)) /\
  getItem (snd w') "templates"
  = Some (JSON_stringify (templates_to_json (templates (fst w')))) /\
  initial_templates (snd w') = Ok (templates (fst w')) /\
  (forall key, key <> "templates" ->
     getItem (snd w') key = getItem ls key).
Proof.
  pose proof (mount_in_sync ls w Hmount) as Hsync.
  destruct (run_steps_in_sync es w w' Hsync Hrun) as [Hsync' Hload].
  destruct (mount_writes_parsed ls w Hmount) as (v & Hv & _ & Hw).
  split; [now exists v |].
  split; [exact Hsync' |]. split; [exact Hload |].
  intros key Hkey. rewrite (run_steps_other_keys es w w' key Hkey Hrun).
  rewrite Hw. unfold getItem, setItem. now apply lookup_insert_ne.
Qed.

Lemma X12_witness :
  exists w',
    run_steps (mkBuilder [] None, persist [] ∅)
              [ClickCreate "a" "sa"; OnSection 0 (ClickAddField "f")]
    = Ok w' /\
    initial_templates (snd w') = Ok (templates (fst w')).
Proof.
  destruct (run_steps (mkBuilder [] None, persist [] ∅)
              [ClickCreate "a" "sa"; OnSection 0 (ClickAddField "f")])
    as [w' | |] eqn:Hrun;
    [| vm_compute in Hrun; discriminate | vm_compute in Hrun; discriminate].
  exists w'. split; [reflexivity |].
  eapply (X12_storage_follows_the_template_set ∅
            (mkBuilder [] None, persist [] ∅) w'); [| exact Hrun].
  vm_compute. reflexivity.
Defined.

(** ** Field types *)

Lemma Section_handle_types (section section' : Sect.t) (e : section_event) :
  Forall (fun f => mem (Field.type f) FIELD_TYPES = true)
         (Sect.fields section) ->
  Section_handle section e = Ok section' ->
  Forall (fun f => mem (Field.type f) FIELD_TYPES = true)
         (Sect.fields section').
Proof.
  intros Hok. destruct e as [v | i fe | u]; cbn [Section_handle].
  - now intros [= <-].
  - destruct (Sect.fields section !! i) as [field |] eqn:Hfield;
      [| discriminate].
    assert (Hi : i < length (Sect.fields section))
      by (eapply lookup_lt_Some; eauto).
    assert (Hfield_ok : mem (Field.type field) FIELD_TYPES = true)
      by (eapply (proj1 (Forall_lookup _ _) Hok); eauto).
    destruct fe as [v | v | v |].
    + destruct (mem v FIELD_TYPES) eqn:Hv; [| discriminate].
      rewrite updateField_in_range by assumption. intros [= <-].
      cbn [Sect.fields]. now apply Forall_insert.
    + rewrite updateField_in_range by assumption. intros [= <-].
      cbn [Sect.fields]. now apply Forall_insert.
    + destruct (String.eqb (Field.type field) "enum"); [| discriminate].
      rewrite updateField_in_range by assumption. intros [= <-].
      cbn [Sect.fields]. now apply Forall_insert.
    + intros [= <-]. cbn [deleteField Sect.fields]. unfold splice.
      apply Forall_app. split; [now apply Forall_take | now apply Forall_drop].
  - intros [= <-]. cbn [Section_addField Sect.fields].
    apply Forall_app. split; [assumption |]. now repeat constructor.
Qed.

Lemma set_sections_types (st : Builder) (cur : Template.t)
    (secs : list Sect.t) :
  builder_types_offered st ->
  types_offered (with_sections cur secs) ->
  builder_types_offered (set_sections st cur secs).
Proof.
  intros [Hall _] Hsecs. split.
  - unfold set_sections. cbn [templates]. apply Forall_fmap.
    eapply Forall_impl; [exact Hall |]. intros t Ht. cbn.
    now destruct (String.eqb (Template.id t) (Template.id cur)).
  - unfold set_sections. cbn [currentTemplate]. now intros cur' [= <-].
Qed.

Lemma handle_types (st st' : Builder) (e : builder_event) :
  builder_types_offered st ->
  TemplateBuilder_handle st e = Ok st' ->
  builder_types_offered st'.
Proof.
  intros Hok. pose proof Hok as [Hall Hcur].
  destruct e as [u1 u2 | k | j se | u]; cbn [TemplateBuilder_handle].
  - intros [= <-]. unfold createTemplate.
    destruct (5 <=? length (templates st)); [assumption |].
    assert (Hnew : types_offered
              (Template.mk u1
                 ("Template " +:+ pretty (length (templates st) + 1))
                 [Sect.mk u2 "Section 1" []]))
      by now repeat constructor.
    split; cbn [templates currentTemplate].
    + apply Forall_app. split; [assumption | now constructor].
    + now intros cur [= <-].
  - destruct (templates st !! k) as [t |] eqn:Hk; [| discriminate].
    intros [= <-]. split; [assumption |].
    cbn [selectTemplate currentTemplate]. intros cur [= <-].
    eapply (proj1 (Forall_lookup _ _) Hall); eauto.
  - destruct (currentTemplate st) as [cur |] eqn:Ecur; [| discriminate].
    destruct (Template.sections cur !! j) as [section |] eqn:Hj;
      [| discriminate].
    destruct (Section_handle section se) as [s | |] eqn:Hs;
      cbn [mbind outcome_bind]; [| discriminate | discriminate].
    rewrite (updateSection_in_range st cur)
      by (try assumption; eapply lookup_lt_Some; eauto).
    intros [= <-]. apply set_sections_types; [assumption |].
    unfold types_offered, with_sections. cbn [Template.sections].
    apply Forall_insert; [now apply Hcur |].
    eapply Section_handle_types; [| exact Hs].
    eapply (proj1 (Forall_lookup _ _) (Hcur cur eq_refl)); eauto.
  - destruct (currentTemplate st) as [cur |] eqn:Ecur; [| discriminate].
    unfold addSection. rewrite Ecur. intros [= <-].
    apply set_sections_types; [assumption |].
    unfold types_offered, with_sections. cbn [Template.sections].
    apply Forall_app. split; [now apply Hcur | now repeat constructor].
Qed.

(** X22.  The builder only ever produces fields whose type is one of the
    five of [FIELD_TYPES]: "Add Field" gives [text] and the type select
    offers nothing else.  So in every state reached from a template set
    with that property (the empty one, for instance), every field of every
    template renders its caption and exactly one element in the form. *)
Theorem X22_field_types_stay_offered
    (st st' : Builder) (es : list builder_event)
    (Hinit : builder_types_offered st)
    (Hrun : run st es = Ok st') :
  builder_types_offered st' /\
  (forall t section field formData,
     t ∈ templates st' -> section ∈ Template.sections t ->
     field ∈ Sect.fields section ->
     length (DynamicForm_field formData field) = 2).
Proof.
  assert (H : builder_types_offered st').
  { revert st Hinit Hrun. induction es as [| e es IH]; intros st Hinit;
      cbn [run].
    - now intros [= <-].
    - destruct (TemplateBuilder_handle st e) as [st1 | |] eqn:He;
        cbn [mbind outcome_bind]; [| discriminate | discriminate].
      apply IH. eapply handle_types; eauto. }
  split; [exact H |].
  intros t section field formData Ht Hs Hf.
  destruct H as [Hall _].
  rewrite Forall_forall in Hall. specialize (Hall t Ht).
  unfold types_offered in Hall. rewrite Forall_forall in Hall.
  specialize (Hall section Hs). rewrite Forall_forall in Hall.
  specialize (Hall field Hf).
  unfold DynamicForm_field. unfold mem in Hall.
  apply existsb_exists in Hall as (ty & Hin & Heq).
  apply String.eqb_eq in Heq. rewrite Heq. cbn in Hin.
  destruct Hin as [<- | [<- | [<- | [<- | [<- | []]]]]]; reflexivity.
Qed.

Lemma X22_witness :
  exists st',
    run (mkBuilder [] None)
        [ClickCreate "t1" "s1"; OnSection 0 (ClickAddField "f1");
         OnSection 0 (OnField 0 (ChangeType "boolean"))] = Ok st' /\
    builder_types_offered st'.
Proof.
  destruct (run (mkBuilder [] None)
              [ClickCreate "t1" "s1"; OnSection 0 (ClickAddField "f1");
               OnSection 0 (OnField 0 (ChangeType "boolean"))])
    as [st' | |] eqn:Hrun;
    [| vm_compute in Hrun; discriminate | vm_compute in Hrun; discriminate].
  exists st'. split; [reflexivity |].
  eapply (X22_field_types_stay_offered (mkBuilder [] None) st');
    [| exact Hrun].
  split; [constructor | intros cur; discriminate].
Defined.

(** ** Sections are never removed *)

Lemma Section_handle_id (section section' : Sect.t) (e : section_event) :
  Section_handle section e = Ok section' ->
  Sect.id section' = Sect.id section.
Proof.
  destruct e as [v | i fe | u]; cbn [Section_handle].
  - now intros [= <-].
  - destruct (Sect.fields section !! i) as [field |] eqn:Hfield;
      [| discriminate].
    assert (Hi : i < length (Sect.fields section))
      by (eapply lookup_lt_Some; eauto).
    destruct fe as [v | v | v |].
    + destruct (mem v FIELD_TYPES); [| discriminate].
      rewrite updateField_in_range by assumption. now intros [= <-].
    + rewrite updateField_in_range by assumption. now intros [= <-].
    + destruct (String.eqb (Field.type field) "enum"); [| discriminate].
      rewrite updateField_in_range by assumption. now intros [= <-].
    + now intros [= <-].
  - now intros [= <-].
Qed.

Lemma handle_sections_grow (st st' : Builder) (e : builder_event) :
  well_formed st ->
  TemplateBuilder_handle st e = Ok st' ->
  forall k t, templates st !! k = Some t ->
    exists t', templates st' !! k = Some t' /\
               (Sect.id <$> Template.sections t)
                 `prefix_of` (Sect.id <$> Template.sections t').
Proof.
  intros Hwf He k t Hk.
  assert (Hsecs : forall cur secs,
            currentTemplate st = Some cur ->
            (Sect.id <$> Template.sections cur) `prefix_of` (Sect.id <$> secs)
            ->
            exists t', templates (set_sections st cur secs) !! k = Some t' /\
                       (Sect.id <$> Template.sections t)
                         `prefix_of` (Sect.id <$> Template.sections t')).
  { intros cur secs Hcur Hpre. unfold set_sections. cbn [templates].
    rewrite list_lookup_fmap, Hk. cbn.
    destruct (String.eqb_spec (Template.id t) (Template.id cur)) as [Hid | _].
    - eexists. split; [reflexivity |]. cbn [with_sections Template.sections].
      assert (t = cur) as ->; [| assumption].
      apply (well_formed_entry st); try assumption.
      eapply list_elem_of_lookup_2; eauto.
    - now exists t. }
  destruct e as [u1 u2 | i | j se | u]; cbn [TemplateBuilder_handle] in He.
  - injection He as <-. unfold createTemplate.
    destruct (5 <=? length (templates st)); [now exists t |].
    cbn [templates]. exists t. split; [| reflexivity].
    rewrite lookup_app_l; [assumption | eapply lookup_lt_Some; eauto].
  - destruct (templates st !! i); [| discriminate].
    injection He as <-. now exists t.
  - destruct (currentTemplate st) as [cur |] eqn:Hcur; [| discriminate].
    destruct (Template.sections cur !! j) as [section |] eqn:Hj;
      [| discriminate].
    destruct (Section_handle section se) as [s | |] eqn:Hs;
      cbn [mbind outcome_bind] in He; try discriminate.
    rewrite (updateSection_in_range st cur) in He
      by (try assumption; eapply lookup_lt_Some; eauto).
    injection He as <-. apply Hsecs; [reflexivity |].
    rewrite list_fmap_insert, (Section_handle_id _ _ _ Hs).
    rewrite list_insert_id; [reflexivity |].
    now rewrite list_lookup_fmap, Hj.
  - destruct (currentTemplate st) as [cur |] eqn:Hcur; [| discriminate].
    unfold addSection in He. rewrite Hcur in He. injection He as <-.
    apply Hsecs; [reflexivity |]. rewrite fmap_app. now apply prefix_app_r.
Qed.

(** X23.  No section is ever removed or moved, and no section changes its
    id: with distinct template ids kept distinct by fresh uuids, after any
    events every template of the old set is still at its position and the
    ids of its old sections, in order, begin the ids of its sections. *)
Theorem X23_sections_only_grow_at_the_end
    (st st' : Builder) (es : list builder_event) (k : nat) (t : Template.t)
    (Hwf : well_formed st)
    (Hfresh : creates_fresh st es)
    (Hrun : run st es = Ok st')
    (Hk : templates st !! k = Some t) :
  exists t',
    templates st' !! k = Some t' /\
    (Sect.id <$> Template.sections t)
      `prefix_of` (Sect.id <$> Template.sections t').
Proof.
  revert st t Hwf Hfresh Hrun Hk.
  induction es as [| e es IH]; intros st t Hwf Hfresh; cbn [run].
  - intros [= <-] Hk. now exists t.
  - cbn [creates_fresh] in Hfresh. destruct Hfresh as [Hnow Hlater].
    destruct (TemplateBuilder_handle st e) as [st1 | |] eqn:He;
      cbn [mbind outcome_bind]; [| discriminate | discriminate].
    intros Hrun Hk.
    destruct (handle_sections_grow st st1 e Hwf He k t Hk)
      as (t1 & Hk1 & Hpre1).
    destruct (IH st1 t1 (handle_well_formed st st1 e Hwf Hnow He)
                Hlater Hrun Hk1) as (t' & Hk' & Hpre').
    exists t'. split; [assumption | now transitivity
                                     (Sect.id <$> Template.sections t1)].
Qed.

Lemma X23_witness :
  let t1 := Template.mk "t1" "Template 1" [Sect.mk "s1" "Section 1" []] in
  exists st' t',
    run (mkBuilder [t1] (Some t1))
        [OnSection 0 (ChangeTitle "Intro"); ClickAddSection "s2"] = Ok st' /\
    templates st' !! 0 = Some t' /\
    ["s1"] `prefix_of` (Sect.id <$> Template.sections t').
Proof.
  intros t1.
  destruct (run (mkBuilder [t1] (Some t1))
              [OnSection 0 (ChangeTitle "Intro"); ClickAddSection "s2"])
    as [st' | |] eqn:Hrun;
    [| vm_compute in Hrun; discriminate | vm_compute in Hrun; discriminate].
  assert (Hwf : well_formed (mkBuilder [t1] (Some t1))).
  { split.
    - cbn. apply NoDup_singleton.
    - intros cur [= <-]. now left. }
  destruct (X23_sections_only_grow_at_the_end
              (mkBuilder [t1] (Some t1)) st'
              [OnSection 0 (ChangeTitle "Intro"); ClickAddSection "s2"]
              0 t1 Hwf ltac:(cbn; tauto) Hrun eq_refl)
    as (t' & Hk & Hpre).
  exists st', t'. split; [reflexivity |]. split; [exact Hk | exact Hpre].
Defined.

(** ** Answers *)

Section Rewrites.
Context {V : Type}.
Implicit Types (o : list (string * V)) (k : string) (v : V).

Lemma has_overwrite o k v k' :
  has_property (overwrite o k v) k' = has_property o k'.
Proof.
  unfold has_property. induction o as [| [k0 v0] o IH]; cbn; [reflexivity |].
  destruct (String.eqb k0 k) eqn:E; cbn.
  - now destruct (String.eqb k0 k').
  - destruct (String.eqb k0 k'); [reflexivity | exact IH].
Qed.

Lemma overwrite_overwrite o k v1 v2 :
  overwrite (overwrite o k v1) k v2 = overwrite o k v2.
Proof.
  induction o as [| [k0 v0] o IH]; cbn; [reflexivity |].
  destruct (String.eqb k0 k) eqn:E; cbn; rewrite E; [reflexivity |].
  now rewrite IH.
Qed.

Lemma overwrite_create o k v1 v2 :
  has_property o k = false ->
  overwrite (create o k v1) k v2 = create o k v2.
Proof.
  unfold has_property. induction o as [| [k0 v0] o IH]; cbn.
  - now rewrite String.eqb_refl.
  - destruct (String.eqb k0 k) eqn:E; [discriminate |]. intros H.
    destruct (key_before k0 k); cbn.
    + rewrite E. now rewrite IH.
    + now rewrite String.eqb_refl.
Qed.

Lemma has_create o k v :
  has_property o k = false -> has_property (create o k v) k = true.
Proof.
  intros H. unfold has_property. now rewrite get_create_eq.
Qed.

Lemma set_property_twice o k v1 v2 :
  set_property (set_property o k v1) k v2 = set_property o k v2.
Proof.
  unfold set_property. destruct (has_property o k) eqn:E.
  - rewrite has_overwrite, E. apply overwrite_overwrite.
  - rewrite has_create by assumption. now apply overwrite_create.
Qed.

Lemma set_property_length o k v :
  length (set_property o k v)
  = if has_property o k then length o else S (length o).
Proof.
  unfold set_property. destruct (has_property o k).
  - induction o as [| [k0 v0] o IH]; cbn; [reflexivity |].
    destruct (String.eqb k0 k); cbn; [reflexivity | now rewrite IH].
  - induction o as [| [k0 v0] o IH]; cbn; [reflexivity |].
    destruct (key_before k0 k); cbn; [now rewrite IH | reflexivity].
Qed.
End Rewrites.

(** X13.  Recording two answers for the same field in a row leaves exactly
    what recording the second alone leaves: the later answer replaces the
    earlier one, it is not added beside it; and an answer adds an entry
    only when the field had none. *)
Theorem X13_later_answer_replaces_earlier
    (formData : list (string * answer)) (f : string) (v1 v2 : answer) :
  handleChange (handleChange formData f v1) f v2 = handleChange formData f v2
  /\
  length (handleChange formData f v1)
  = if has_property formData f then length formData
    else S (length formData).
Proof.
  unfold handleChange. split.
  - apply set_property_twice.
  - apply set_property_length.
Qed.

Lemma canonical_keys_distinct (ks : list string) :
  canonical_keys ks = true -> NoDup ks.
Proof.
  induction ks as [| k ks IH]; cbn [canonical_keys]; intros H.
  - apply NoDup_nil_2.
  - apply andb_true_iff in H as [Hhead Htail].
    apply NoDup_cons. split; [| now apply IH].
    intros Hin. apply list_elem_of_In in Hin.
    rewrite forallb_forall in Hhead. specialize (Hhead k Hin).
    rewrite String.eqb_refl in Hhead. discriminate.
Qed.

Lemma record_all_snoc (fd cs : list (string * answer))
    (c : string * answer) :
  record_all fd (cs ++ [c]) = handleChange (record_all fd cs) (fst c) (snd c).
Proof. unfold record_all. now rewrite fold_left_app. Qed.

(** X14.  After any series of changes starting from the empty mapping [{}],
    the answer of a field is the value of the last change made for that
    field id (none if there was no change for it), and every field id has
    at most one entry. *)
Theorem X14_answers_are_the_last_changes
    (changes : list (string * answer)) (f : string) :
  get_property (record_all [] changes) f = get_property (reverse changes) f /\
  NoDup (fst <$> record_all [] changes).
Proof.
  split.
  - induction changes as [| [g v] changes IH] using rev_ind; [reflexivity |].
    rewrite record_all_snoc, reverse_snoc. cbn [fst snd get_property].
    destruct (String.eqb_spec g f) as [-> | Hne].
    + apply get_set_eq.
    + unfold handleChange. rewrite get_set_ne by congruence. exact IH.
  - apply canonical_keys_distinct, handleChange_canonical.
Qed.

(** ** Submissions *)

Lemma handleSubmit_appends
    (template : Template.t) (log : list (list (string * answer)))
    (m : list (string * answer)) (ls : gmap string string) :
  read_log template ls = Ok (log_to_json log) ->
  handleSubmit template m ls
  = Ok (mkSubmitted
          (setItem ls (form_data_key template)
                   (JSON_stringify (log_to_json (log ++ [m]))))
          ["Form submitted!"] []).
Proof.
  intros Hlog. unfold handleSubmit. rewrite Hlog.
  cbn [mbind outcome_bind log_to_json spread].
  unfold log_to_json. now rewrite fmap_app.
Qed.

Lemma read_log_stored (template : Template.t)
    (log : list (list (string * answer))) (ls : gmap string string) :
  Forall (fun e => canonical_keys (fst <$> e) = true) log ->
  read_log template
    (setItem ls (form_data_key template) (JSON_stringify (log_to_json log)))
  = Ok (log_to_json log).
Proof.
  intros Hc. unfold read_log, getItem, setItem. rewrite lookup_insert_eq.
  cbn [or_else]. unfold log_to_json at 1. rewrite stringify_truthy.
  apply JSON_roundtrip. now apply canonical_log.
Qed.

(** X15.  Submissions accumulate: submitting the answer mappings [ms] one
    after the other extends the stored log of the template by exactly
    [ms], in the order submitted; reading the log afterwards gives the old
    entries followed by [ms]; other keys are untouched. *)
Theorem X15_submissions_accumulate_in_order
    (template : Template.t) (log ms : list (list (string * answer)))
    (ls : gmap string string)
    (Hlog : read_log template ls = Ok (log_to_json log))
    (Hkeys : Forall (fun e => canonical_keys (fst <$> e) = true)
                    (log ++ ms)) :
  exists ls',
    submit_all template ms ls = Ok ls' /\
    read_log template ls' = Ok (log_to_json (log ++ ms)) /\
    (forall key, key <> form_data_key template ->
       getItem ls' key = getItem ls key).
Proof.
  revert log ls Hlog Hkeys.
  induction ms as [| m ms IH]; intros log ls Hlog Hkeys; cbn [submit_all].
  - exists ls. rewrite app_nil_r. now repeat split.
  - rewrite (handleSubmit_appends template log m ls Hlog).
    cbn [mbind outcome_bind storage_after].
    replace (log ++ m :: ms) with ((log ++ [m]) ++ ms) in *
      by now rewrite <- app_assoc.
    destruct (IH (log ++ [m])
                (setItem ls (form_data_key template)
                         (JSON_stringify (log_to_json (log ++ [m])))))
      as (ls' & Hrun & Hread & Hother).
    + apply read_log_stored. apply Forall_app in Hkeys. tauto.
    + assumption.
    + exists ls'. split; [exact Hrun |]. split; [exact Hread |].
      intros key Hkey. rewrite (Hother key Hkey).
      unfold getItem, setItem. now apply lookup_insert_ne.
Qed.

Lemma X15_witness :
  let template := Template.mk "t1" "Template 1" [] in
  exists ls',
    submit_all template [[("a", Text "x")]; [("a", Text "y")]] ∅ = Ok ls' /\
    read_log template ls'
    = Ok (log_to_json [[("a", Text "x")]; [("a", Text "y")]]).
Proof.
  intros template.
  assert (Hlog : read_log template ∅ = Ok (log_to_json []))
    by (vm_compute; reflexivity).
  destruct (X15_submissions_accumulate_in_order template []
              [[("a", Text "x")]; [("a", Text "y")]] ∅ Hlog)
    as (ls' & Hrun & Hread & _).
  - repeat constructor.
  - exists ls'. split; [exact Hrun | exact Hread].
Defined.

(** X16.  When the value stored for the log is valid JSON but neither an
    array nor a string (null, a number, a boolean, an object), the submit
    throws a TypeError at the spread: nothing is written and the answers
    are not cleared. *)
Theorem X16_submit_on_non_iterable_log_throws
    (template : Template.t) (m : list (string * answer))
    (ls : gmap string string) (prev : json)
    (Hread : read_log template ls = Ok prev)
    (Harray : as_array prev = None)
    (Hstring : as_string prev = None) :
  handleSubmit template m ls = Throw TypeError.
Proof.
  unfold handleSubmit. rewrite Hread. cbn [mbind outcome_bind].
  destruct prev; try discriminate; reflexivity.
Qed.

Lemma X16_witness :
  handleSubmit (Template.mk "t1" "Template 1" []) [("a", Text "x")]
               {["form_data_t1" := "null"]}
  = Throw TypeError.
Proof.
  apply (X16_submit_on_non_iterable_log_throws
           (Template.mk "t1" "Template 1" []) [("a", Text "x")]
           {["form_data_t1" := "null"]} JNull).
  - vm_compute. reflexivity.
  - reflexivity.
  - reflexivity.
Defined.

Lemma form_data_key_not_templates (template : Template.t) :
  form_data_key template <> "templates".
Proof. unfold form_data_key. discriminate. Qed.

Lemma form_data_key_inj (t1 t2 : Template.t) :
  form_data_key t1 = form_data_key t2 -> Template.id t1 = Template.id t2.
Proof.
  unfold form_data_key. intros H. cbn in H. now injection H.
Qed.

(** X17.  The two kinds of storage keys never interfere: a submit for one
    template changes neither the stored template set nor the log of a
    template with another id, and persisting the template set changes no
    log. *)
Theorem X17_logs_and_template_set_are_independent
    (template other : Template.t) (m : list (string * answer))
    (ls : gmap string string) (r : Submitted)
    (Hsubmit : handleSubmit template m ls = Ok r)
    (Hother : Template.id other <> Template.id template) :
  load_templates (storage_after r) = load_templates ls /\
  initial_templates (storage_after r) = initial_templates ls /\
  read_log other (storage_after r) = read_log other ls /\
  (forall ts, read_log template (persist ts ls) = read_log template ls).
Proof.
  assert (Hpersist : forall ts,
            read_log template (persist ts ls) = read_log template ls).
  { intros ts. unfold read_log, persist, getItem, setItem.
    rewrite lookup_insert_ne; [reflexivity |].
    apply not_eq_sym, form_data_key_not_templates. }
  unfold handleSubmit in Hsubmit.
  destruct (read_log template ls) as [prev | |];
    cbn [mbind outcome_bind] in Hsubmit; try discriminate.
  destruct (spread prev) as [items | |];
    cbn [mbind outcome_bind] in Hsubmit; try discriminate.
  injection Hsubmit as <-. cbn [storage_after].
  assert (Hload : forall v,
            load_templates (setItem ls (form_data_key template) v)
            = load_templates ls).
  { intros v. unfold load_templates, getItem, setItem.
    rewrite lookup_insert_ne by apply form_data_key_not_templates.
    reflexivity. }
  split; [apply Hload |].
  split; [unfold initial_templates; now rewrite Hload |]. split.
  - unfold read_log, getItem, setItem.
    rewrite lookup_insert_ne; [reflexivity |].
    intros Heq. apply Hother. symmetry. now apply form_data_key_inj.
  - exact Hpersist.
Qed.

Lemma X17_witness :
  let t1 := Template.mk "t1" "Template 1" [] in
  let t2 := Template.mk "t2" "Template 2" [] in
  let ls := persist [t1; t2] ∅ in
  exists r,
    handleSubmit t1 [("a", Text "x")] ls = Ok r /\
    initial_templates (storage_after r) = initial_templates ls /\
    read_log t2 (storage_after r) = read_log t2 ls.
Proof.
  intros t1 t2 ls.
  destruct (handleSubmit t1 [("a", Text "x")] ls) as [r | |] eqn:Hsubmit;
    [| vm_compute in Hsubmit; discriminate
     | vm_compute in Hsubmit; discriminate].
  destruct (X17_logs_and_template_set_are_independent
              t1 t2 [("a", Text "x")] ls r Hsubmit)
    as (_ & Hinit & Hlog & _); [discriminate |].
  exists r. split; [reflexivity |]. split; [exact Hinit | exact Hlog].
Defined.

(** ** What the form shows *)

Lemma or_answer_text (v : string) :
  or_answer (Some (Answer (Text v))) (Text EmptyString) = Answer (Text v).
Proof. destruct v; reflexivity. Qed.

Lemma or_answer_checked (b : bool) :
  or_answer (Some (Answer (Checked b))) (Checked false) = Answer (Checked b).
Proof. destruct b; reflexivity. Qed.

Lemma read_answer_recorded (formData : list (string * answer))
    (id : string) (a : answer) :
  read_answer (handleChange formData id a) id = Some (Answer a).
Proof. unfold read_answer, handleChange. now rewrite get_set_eq. Qed.

Lemma read_answer_other (formData : list (string * answer))
    (id other : string) (a : answer) :
  other <> id ->
  read_answer (handleChange formData other a) id = read_answer formData id.
Proof.
  intros Hne. unfold read_answer, handleChange.
  now rewrite get_set_ne by congruence.
Qed.

Lemma or_answer_unanswered (id : string) (d : answer) :
  or_answer (read_answer [] id) d
  = if mem id Object_prototype then Member id else Answer d.
Proof.
  unfold read_answer. cbn [get_property].
  now destruct (mem id Object_prototype).
Qed.

(** X18.  The controls of the form are faithful controlled inputs: after
    [handleChange] records the text [v] (or the checkbox state [b]) for a
    field, the control of that field shows exactly [v] (or [b]), the empty
    text and the unchecked state included, whatever the field id; a change
    for another field id changes nothing of what this field renders.  With
    the empty mapping (at the start and after a submit) a text, number or
    select control shows the empty text and a checkbox is unchecked, unless
    the field id is the name of a member of [Object.prototype]: the control
    is then given that inherited member. *)
Theorem X18_controls_show_the_recorded_answer
    (formData : list (string * answer)) (field : Field.t)
    (v : string) (b : bool) :
  let caption := Caption (Field.label field) in
  let id := Field.id field in
  let choices := EmptyString :: default [] (Field.options field) in
  let unanswered (d : answer) :=
    if mem id Object_prototype then Member id else Answer d in
  (Field.type field = "text" ->
     DynamicForm_field (handleChange formData id (Text v)) field
     = [caption; TextInput (Answer (Text v))] /\
     DynamicForm_field [] field
     = [caption; TextInput (unanswered (Text EmptyString))]) /\
  (Field.type field = "number" ->
     DynamicForm_field (handleChange formData id (Text v)) field
     = [caption; NumberInput (Answer (Text v))] /\
     DynamicForm_field [] field
     = [caption; NumberInput (unanswered (Text EmptyString))]) /\
  (Field.type field = "boolean" ->
     DynamicForm_field (handleChange formData id (Checked b)) field
     = [caption; Checkbox (Answer (Checked b))] /\
     DynamicForm_field [] field
     = [caption; Checkbox (unanswered (Checked false))]) /\
  (Field.type field = "enum" ->
     DynamicForm_field (handleChange formData id (Text v)) field
     = [caption; Select (Answer (Text v)) choices] /\
     DynamicForm_field [] field
     = [caption; Select (unanswered (Text EmptyString)) choices]) /\
  (forall other a, other <> id ->
     DynamicForm_field (handleChange formData other a) field
     = DynamicForm_field formData field).
Proof.
  intros caption id choices unanswered. unfold DynamicForm_field.
  fold id caption choices. rewrite !or_answer_unanswered. fold unanswered.
  split; [| split; [| split; [| split]]];
    try (intros ->; rewrite read_answer_recorded;
         cbn [String.eqb Ascii.eqb Bool.eqb app];
         rewrite ?or_answer_text, ?or_answer_checked; now split).
  intros other a Hne. now rewrite read_answer_other.
Qed.

Lemma X18_witness :
  let field := Field.mk "f1" "text" "Name" None in
  DynamicForm_field (handleChange [("f1", Text "Ann")] "f1" (Text EmptyString))
                    field
  = [Caption "Name"; TextInput (Answer (Text EmptyString))] /\
  DynamicForm_field [] (Field.mk "constructor" "text" "Name" None)
  = [Caption "Name"; TextInput (Member "constructor")].
Proof.
  intros field. split.
  - apply (proj1 (X18_controls_show_the_recorded_answer
                    [("f1", Text "Ann")] field EmptyString false)).
    reflexivity.
  - apply (proj1 (X18_controls_show_the_recorded_answer
                    [] (Field.mk "constructor" "text" "Name" None)
                    EmptyString false)).
    reflexivity.
Defined.

(** X19.  A field whose type is one of the five offered types renders
    exactly one element besides its caption; a field with any other type
    string renders its caption only, so it offers nothing to fill in. *)
Theorem X19_one_control_per_offered_type
    (formData : list (string * answer)) (field : Field.t) :
  (mem (Field.type field) FIELD_TYPES = true ->
     length (DynamicForm_field formData field) = 2) /\
  (mem (Field.type field) FIELD_TYPES = false ->
     DynamicForm_field formData field = [Caption (Field.label field)] /\
     forall value,
       existsb (fun el => delivers el value)
               (DynamicForm_field formData field) = false).
Proof.
  unfold DynamicForm_field, mem. split.
  - intros H. apply existsb_exists in H as (t & Hin & Heq).
    apply String.eqb_eq in Heq. rewrite Heq.
    cbn in Hin.
    destruct Hin as [<- | [<- | [<- | [<- | [<- | []]]]]]; reflexivity.
  - cbn [existsb FIELD_TYPES]. intros H.
    repeat (apply orb_false_iff in H as [? H]).
    repeat match goal with
           | E : String.eqb _ _ = false |- _ => rewrite E; clear E
           end.
    split; [reflexivity |]. now intros value.
Qed.

Lemma X19_witness :
  DynamicForm_field [] (Field.mk "f1" "date" "Born" None)
  = [Caption "Born"].
Proof.
  apply (proj2 (X19_one_control_per_offered_type
                  [] (Field.mk "f1" "date" "Born" None))).
  reflexivity.
Defined.

(** ** The root component *)

Lemma App_handle_templates (a a' : App) (e : app_event) :
  App_handle a e = Ok a' -> app_templates a' = app_templates a.
Proof.
  destruct a as [ts v ls].
  destruct e as [| k | be | f value |], v as [b | t fd];
    cbn [App_handle app_view app_templates app_storage];
    try discriminate.
  - now intros [= <-].
  - destruct (TemplateBuilder_mount ls); cbn [mbind outcome_bind];
      try discriminate. now intros [= <-].
  - destruct (ts !! k); [| discriminate]. now intros [= <-].
  - destruct (ts !! k); [| discriminate]. now intros [= <-].
  - destruct (TemplateBuilder_step (b, ls) be); cbn [mbind outcome_bind];
      try discriminate. now intros [= <-].
  - destruct (form_offers t fd f value); [| discriminate]. now intros [= <-].
  - destruct (handleSubmit t fd ls); cbn [mbind outcome_bind];
      try discriminate. now intros [= <-].
Qed.

Lemma App_run_templates (es : list app_event) (a a' : App) :
  App_run a es = Ok a' -> app_templates a' = app_templates a.
Proof.
  revert a. induction es as [| e es IH]; intros a; cbn [App_run].
  - now intros [= <-].
  - destruct (App_handle a e) as [a1 | |] eqn:He; cbn [mbind outcome_bind];
      try discriminate.
    intros Hrun. rewrite (IH _ Hrun). now apply (App_handle_templates a a1 e).
Qed.

(** X20.  The templates the root component offers for filling are those
    the storage held when the page was loaded, whatever happens afterwards:
    the root never sets its [templates] again, so a template created or
    edited in the builder is not offered, or is offered as it was, until
    the next load. *)
Theorem X20_offered_templates_are_those_loaded
    (ls : gmap string string) (a a' : App) (es : list app_event)
    (Hmount : App_mount ls = Ok a)
    (Hrun : App_run a es = Ok a') :
  initial_templates ls = Ok (app_templates a').
Proof.
  rewrite (App_run_templates es a a' Hrun).
  unfold App_mount in Hmount.
  destruct (initial_templates ls) as [ts | |];
    cbn [mbind outcome_bind] in Hmount; try discriminate.
  destruct (TemplateBuilder_mount ls) as [w | |];
    cbn [mbind outcome_bind] in Hmount; try discriminate.
  now injection Hmount as <-.
Qed.

Lemma X20_witness :
  exists a a' b,
    App_mount ∅ = Ok a /\
    App_run a [InBuilder (ClickCreate "t1" "s1")] = Ok a' /\
    app_view a' = Building b /\
    length (templates b) = 1 /\
    app_templates a' = [].
Proof.
  destruct (App_mount ∅) as [a | |] eqn:Hmount;
    [| vm_compute in Hmount; discriminate
     | vm_compute in Hmount; discriminate].
  destruct (App_run a [InBuilder (ClickCreate "t1" "s1")])
    as [a' | |] eqn:Hrun.
  - pose proof (X20_offered_templates_are_those_loaded ∅ a a' _ Hmount Hrun)
      as Hoffered.
    vm_compute in Hoffered. injection Hoffered as Hoffered.
    vm_compute in Hmount. injection Hmount as <-.
    vm_compute in Hrun. injection Hrun as <-.
    eexists _, _, _. repeat split; reflexivity.
  - vm_compute in Hmount. injection Hmount as <-.
    vm_compute in Hrun. discriminate.
  - vm_compute in Hmount. injection Hmount as <-.
    vm_compute in Hrun. discriminate.
Defined.

Lemma App_run_app (es1 es2 : list app_event) (a : App) :
  App_run a (es1 ++ es2) = a' ← App_run a es1; App_run a' es2.
Proof.
  revert a. induction es1 as [| e es1 IH]; intros a; [reflexivity |].
  cbn [app App_run]. destruct (App_handle a e); cbn [mbind outcome_bind];
    [apply IH | reflexivity | reflexivity].
Qed.

Lemma initial_templates_key (ls1 ls2 : gmap string string) :
  getItem ls1 "templates" = getItem ls2 "templates" ->
  initial_templates ls1 = initial_templates ls2.
Proof.
  intros H. unfold initial_templates, load_templates. now rewrite H.
Qed.

Lemma form_event_keeps_template_set (a a' : App) (e : app_event) :
  match e with
  | ClickUse _ | FormChange _ _ | FormSubmit => True
  | _ => False
  end ->
  (exists t fd, app_view a = Filling t fd) ->
  App_handle a e = Ok a' ->
  (exists t fd, app_view a' = Filling t fd) /\
  getItem (app_storage a') "templates" = getItem (app_storage a) "templates".
Proof.
  intros He (t & fd & Hview). destruct a as [ts v ls].
  cbn [app_view] in Hview. subst v.
  destruct e as [| k | be | f value |]; try contradiction;
    cbn [App_handle app_view app_templates app_storage].
  - destruct (ts !! k) as [t' |]; [| discriminate]. intros [= <-].
    cbn [app_view app_storage]. split; [now eexists _, _ | reflexivity].
  - destruct (form_offers t fd f value); [| discriminate]. intros [= <-].
    cbn [app_view app_storage]. split; [now eexists _, _ | reflexivity].
  - unfold handleSubmit.
    destruct (read_log t ls) as [prev | |]; cbn [mbind outcome_bind];
      try discriminate.
    destruct (spread prev) as [items | |]; cbn [mbind outcome_bind];
      try discriminate.
    intros [= <-]. cbn [app_view app_storage storage_after].
    split; [now eexists _, _ |].
    unfold getItem, setItem. apply lookup_insert_ne.
    apply form_data_key_not_templates.
Qed.

Lemma form_run_keeps_template_set (es : list app_event) (a a' : App) :
  Forall (fun e => match e with
                   | ClickUse _ | FormChange _ _ | FormSubmit => True
                   | _ => False
                   end) es ->
  (exists t fd, app_view a = Filling t fd) ->
  App_run a es = Ok a' ->
  (exists t fd, app_view a' = Filling t fd) /\
  getItem (app_storage a') "templates" = getItem (app_storage a) "templates".
Proof.
  intros Hes. revert a. induction Hes as [| e es He _ IH]; intros a Hview;
    cbn [App_run].
  - now intros [= <-].
  - destruct (App_handle a e) as [a1 | |] eqn:Hh; cbn [mbind outcome_bind];
      try discriminate.
    destruct (form_event_keeps_template_set a a1 e He Hview Hh)
      as [Hview1 Hkey1].
    intros Hrun. destruct (IH a1 Hview1 Hrun) as [Hview' Hkey'].
    split; [assumption | congruence].
Qed.

(** X21.  A visit to fill mode loses nothing of the template set: from the
    builder, choosing a template to fill, any changes and submits there
    (and switches to other templates), then "Build Template" brings the
    builder back with exactly the template set it had, no template
    selected, and the same text under [templates]. *)
Theorem X21_fill_mode_round_trip
    (a a' : App) (b : Builder) (k : nat) (es : list app_event)
    (Hview : app_view a = Building b)
    (Hsync : in_sync (b, app_storage a))
    (Hform : Forall (fun e => match e with
                              | ClickUse _ | FormChange _ _ | FormSubmit =>
                                  True
                              | _ => False
                              end) es)
    (Hrun : App_run a (ClickUse k :: es ++ [ClickBuild]) = Ok a') :
  app_view a' = Building (mkBuilder (templates b) None) /\
  getItem (app_storage a') "templates"
  = getItem (app_storage a) "templates" /\
  app_templates a' = app_templates a.
Proof.
  destruct a as [ts v ls]. cbn [app_view app_storage app_templates] in *.
  subst v.
  change (ClickUse k :: es ++ [ClickBuild])
    with ((ClickUse k :: es) ++ [ClickBuild]) in Hrun.
  rewrite App_run_app in Hrun.
  destruct (App_run (mkApp ts (Building b) ls) (ClickUse k :: es))
    as [a1 | |] eqn:Hrun1; cbn [mbind outcome_bind] in Hrun;
    try discriminate.
  pose proof (App_run_templates _ _ _ Hrun1) as Hts1.
  cbn [App_run App_handle app_view app_templates app_storage] in Hrun1.
  destruct (ts !! k) as [t |]; cbn [mbind outcome_bind] in Hrun1;
    try discriminate.
  assert (Hfilling : exists t0 fd0,
            app_view (mkApp ts (Filling t []) ls) = Filling t0 fd0)
    by now exists t, [].
  destruct (form_run_keeps_template_set es _ a1 Hform Hfilling Hrun1)
    as [(t1 & fd1 & Hview1) Hkey1].
  cbn [app_storage] in Hkey1.
  destruct a1 as [ts1 v1 ls1]. cbn [app_view app_storage app_templates] in *.
  subst v1 ts1.
  cbn [App_run App_handle app_view app_templates app_storage] in Hrun.
  assert (Hload : initial_templates ls1 = Ok (templates b)).
  { rewrite (initial_templates_key ls1 ls Hkey1).
    apply (run_steps_in_sync [] (b, ls) (b, ls) Hsync eq_refl). }
  unfold TemplateBuilder_mount in Hrun. rewrite Hload in Hrun.
  cbn [mbind outcome_bind fst snd] in Hrun. injection Hrun as <-.
  cbn [app_view app_storage app_templates].
  split; [reflexivity |]. split; [| reflexivity].
  unfold persist, getItem, setItem. rewrite lookup_insert_eq.
  symmetry. exact Hsync.
Qed.

Lemma X21_witness :
  let f := Field.mk "f1" "text" "Name" None in
  let t1 := Template.mk "t1" "Template 1" [Sect.mk "s1" "Section 1" [f]] in
  let a := mkApp [t1] (Building (mkBuilder [t1] (Some t1)))
                 (persist [t1] ∅) in
  exists a',
    App_run a [ClickUse 0; FormChange "f1" (Text "Ann"); FormSubmit;
               ClickBuild] = Ok a' /\
    app_view a' = Building (mkBuilder [t1] None).
Proof.
  intros f t1 a.
  destruct (App_run a [ClickUse 0; FormChange "f1" (Text "Ann"); FormSubmit;
                       ClickBuild]) as [a' | |] eqn:Hrun;
    [| vm_compute in Hrun; discriminate | vm_compute in Hrun; discriminate].
  exists a'. split; [reflexivity |].
  apply (X21_fill_mode_round_trip a a' (mkBuilder [t1] (Some t1)) 0
           [FormChange "f1" (Text "Ann"); FormSubmit]).
  - reflexivity.
  - unfold in_sync. cbn [fst snd app_storage a]. unfold persist, getItem, setItem.
    apply lookup_insert_eq.
  - repeat constructor.
  - exact Hrun.
Defined.
